(** * Block toolbar gestures and positioning

    A shallow embedding of the hooks of
    [packages/block-editor/src/components/block-toolbar/utils.js]:

    - [useDebouncedShowMovers] and [useShowMoversGestures], the debounced
      visibility flag of the block movers (module [Debouncer]);
    - the frame-loop variant of [useSuperExperimentalToolbarPositioning]
      with [useHideOnInitialRender] and [useRequestAnimationFrameLoop]
      (module [FrameLoop]);
    - the resize-driven variant of [useSuperExperimentalToolbarPositioning]
      (module [Resize]).

    The hooks are effectful: they read and write React state cells and refs,
    DOM nodes, and the timers and animation frames of [window].  Each module
    threads an explicit [World] that holds exactly these pieces.  A closure of
    the source becomes a function whose first arguments are the variables it
    captured at the render that created it.  Code that can raise a JavaScript
    [TypeError] returns a [result].

    Pixel values are integers ([Z]).  A browser reports them as doubles, so
    measured boxes enter the statements below only as concrete integer boxes
    or through the comparisons and operations the source itself performs; no
    statement rests on an identity that rounding would break.  Timer and frame
    handles are [positive], as [setTimeout] and [requestAnimationFrame]
    return integers greater than zero. *)

From Stdlib Require Import ZArith PArith List Bool Lia.
From Stdlib Require String.
Import ListNotations.
Local Open Scope Z_scope.

(** ** JavaScript results *)

Inductive exn : Type := TypeError.

Inductive result (A : Type) : Type :=
| Ok (a : A)
| Throw (e : exn).
Arguments Ok {A} a.
Arguments Throw {A} e.

Definition bind {A B : Type} (r : result A) (k : A -> result B) : result B :=
  match r with
  | Ok a => k a
  | Throw e => Throw e
  end.

Notation "x <- r ;; k" := (bind r (fun x => k))
  (at level 61, r at next level, right associativity).

(** The values an expression [ref && ref.current.f( .. )] evaluates to:
    [ref] itself when it is [undefined], a boolean otherwise. *)
Inductive jsval : Type :=
| VUndefined
| VBool (b : bool).

Definition truthy (v : jsval) : bool :=
  match v with
  | VBool b => b
  | VUndefined => false
  end.

(** ** The visibility debouncer *)

Module Debouncer.

(** The one DOM element the hooks are attached to. *)
Inductive Element : Type := region.

(** [useRef()] object handed to the hooks as [ref]; [current] is [None]
    while React has not attached (or has detached) the element. *)
Record RefObject : Type := { current : option Element }.

Inductive EventType : Type := focus | blur.

(** What the callbacks of one render close over: [showMovers] (read by
    [debouncedShowMovers]) and [isFocused] (read by [shouldHideMovers]). *)
Record Closure : Type := { c_showMovers : bool; c_isFocused : bool }.

(** Function objects created by one run of the effect of
    [useShowMoversGestures]; [run] gives them their identity. *)
Inductive Handler : Type :=
| handleOnFocus (run : nat) (c : Closure)
| handleOnBlur (run : nat) (c : Closure).

(** An entry of an element's event listener list.  The DOM identifies an
    entry by type, callback and capture flag together. *)
Record Listener : Type :=
  { l_type : EventType; l_callback : Handler; l_capture : bool }.

Record Node : Type :=
  { hover : bool;                   (* node.matches( ':hover' ) *)
    containsActiveElement : bool;   (* node.contains( document.activeElement ) *)
    listeners : list Listener }.

(** A pending [setTimeout] of [debouncedHideMovers]: its handle, its delay and
    the [isFocused] its callback closed over. *)
Record Timer : Type :=
  { handle : positive; delay : Z; t_isFocused : bool }.

(** The cleanup function returned by one run of the effect: it closes over
    [node] and over the two handlers of that run. *)
Record Cleanup : Type :=
  { cl_node : option Element; cl_run : nat; cl_closure : Closure }.

Record World : Type :=
  { (* arguments of the hooks *)
    ref : option RefObject;
    debounceTimeout : Z;
    (* the DOM element and window *)
    element : Node;
    timers : list Timer;
    nextHandle : positive;
    stopped : list nat;             (* events whose stopPropagation() ran *)
    (* state cells and refs of the two hooks *)
    showMovers : bool;
    isFocused : bool;
    timeoutRef : option positive;
    registerRef : bool;
    effectCleanup : option Cleanup;
    effectRuns : nat }.

Definition set_ref (v : option RefObject) (w : World) : World :=
  {| ref := v; debounceTimeout := debounceTimeout w; element := element w;
     timers := timers w; nextHandle := nextHandle w; stopped := stopped w;
     showMovers := showMovers w; isFocused := isFocused w;
     timeoutRef := timeoutRef w; registerRef := registerRef w;
     effectCleanup := effectCleanup w; effectRuns := effectRuns w |}.

Definition set_element (v : Node) (w : World) : World :=
  {| ref := ref w; debounceTimeout := debounceTimeout w; element := v;
     timers := timers w; nextHandle := nextHandle w; stopped := stopped w;
     showMovers := showMovers w; isFocused := isFocused w;
     timeoutRef := timeoutRef w; registerRef := registerRef w;
     effectCleanup := effectCleanup w; effectRuns := effectRuns w |}.

Definition set_timers (v : list Timer) (w : World) : World :=
  {| ref := ref w; debounceTimeout := debounceTimeout w; element := element w;
     timers := v; nextHandle := nextHandle w; stopped := stopped w;
     showMovers := showMovers w; isFocused := isFocused w;
     timeoutRef := timeoutRef w; registerRef := registerRef w;
     effectCleanup := effectCleanup w; effectRuns := effectRuns w |}.

Definition set_nextHandle (v : positive) (w : World) : World :=
  {| ref := ref w; debounceTimeout := debounceTimeout w; element := element w;
     timers := timers w; nextHandle := v; stopped := stopped w;
     showMovers := showMovers w; isFocused := isFocused w;
     timeoutRef := timeoutRef w; registerRef := registerRef w;
     effectCleanup := effectCleanup w; effectRuns := effectRuns w |}.

Definition set_stopped (v : list nat) (w : World) : World :=
  {| ref := ref w; debounceTimeout := debounceTimeout w; element := element w;
     timers := timers w; nextHandle := nextHandle w; stopped := v;
     showMovers := showMovers w; isFocused := isFocused w;
     timeoutRef := timeoutRef w; registerRef := registerRef w;
     effectCleanup := effectCleanup w; effectRuns := effectRuns w |}.

(** [setShowMovers] of [useState]. *)
Definition setShowMovers (v : bool) (w : World) : World :=
  {| ref := ref w; debounceTimeout := debounceTimeout w; element := element w;
     timers := timers w; nextHandle := nextHandle w; stopped := stopped w;
     showMovers := v; isFocused := isFocused w;
     timeoutRef := timeoutRef w; registerRef := registerRef w;
     effectCleanup := effectCleanup w; effectRuns := effectRuns w |}.

(** [setIsFocused] of [useState]. *)
Definition setIsFocused (v : bool) (w : World) : World :=
  {| ref := ref w; debounceTimeout := debounceTimeout w; element := element w;
     timers := timers w; nextHandle := nextHandle w; stopped := stopped w;
     showMovers := showMovers w; isFocused := v;
     timeoutRef := timeoutRef w; registerRef := registerRef w;
     effectCleanup := effectCleanup w; effectRuns := effectRuns w |}.

Definition set_timeoutRef (v : option positive) (w : World) : World :=
  {| ref := ref w; debounceTimeout := debounceTimeout w; element := element w;
     timers := timers w; nextHandle := nextHandle w; stopped := stopped w;
     showMovers := showMovers w; isFocused := isFocused w;
     timeoutRef := v; registerRef := registerRef w;
     effectCleanup := effectCleanup w; effectRuns := effectRuns w |}.

Definition set_registerRef (v : bool) (w : World) : World :=
  {| ref := ref w; debounceTimeout := debounceTimeout w; element := element w;
     timers := timers w; nextHandle := nextHandle w; stopped := stopped w;
     showMovers := showMovers w; isFocused := isFocused w;
     timeoutRef := timeoutRef w; registerRef := v;
     effectCleanup := effectCleanup w; effectRuns := effectRuns w |}.

Definition set_effect (c : option Cleanup) (n : nat) (w : World) : World :=
  {| ref := ref w; debounceTimeout := debounceTimeout w; element := element w;
     timers := timers w; nextHandle := nextHandle w; stopped := stopped w;
     showMovers := showMovers w; isFocused := isFocused w;
     timeoutRef := timeoutRef w; registerRef := registerRef w;
     effectCleanup := c; effectRuns := n |}.

(** *** window and DOM primitives *)

(** [event.stopPropagation()] under [if ( event )]. *)
Definition stopPropagation (event : option nat) (w : World) : World :=
  match event with
  | Some e => set_stopped (e :: stopped w) w
  | None => w
  end.

(** [setTimeout( callback, debounceTimeout )], for a callback that closed over
    [isFocused_c]: a fresh handle, and one more pending timer. *)
Definition setTimeout (isFocused_c : bool) (w : World) : positive * World :=
  let h := nextHandle w in
  let t := {| handle := h; delay := debounceTimeout w;
              t_isFocused := isFocused_c |} in
  (h, set_nextHandle (Pos.succ h) (set_timers (timers w ++ [t]) w)).

(** [clearTimeout( h )]: the timer with that handle, if still pending, is
    dropped; any other handle is ignored. *)
Definition clearTimeout (h : positive) (w : World) : World :=
  set_timers (filter (fun t => negb (Pos.eqb (handle t) h)) (timers w)) w.

Definition EventType_eqb (a b : EventType) : bool :=
  match a, b with
  | focus, focus | blur, blur => true
  | _, _ => false
  end.

Definition Closure_eqb (a b : Closure) : bool :=
  Bool.eqb (c_showMovers a) (c_showMovers b)
  && Bool.eqb (c_isFocused a) (c_isFocused b).

Definition Handler_eqb (a b : Handler) : bool :=
  match a, b with
  | handleOnFocus m c, handleOnFocus n d => Nat.eqb m n && Closure_eqb c d
  | handleOnBlur m c, handleOnBlur n d => Nat.eqb m n && Closure_eqb c d
  | _, _ => false
  end.

Definition Listener_eqb (a b : Listener) : bool :=
  EventType_eqb (l_type a) (l_type b)
  && Handler_eqb (l_callback a) (l_callback b)
  && Bool.eqb (l_capture a) (l_capture b).

(** [node.addEventListener( type, callback, capture )]: appended unless the
    same (type, callback, capture) entry is already in the list. *)
Definition addEventListener (type : EventType) (callback : Handler)
    (capture : bool) (w : World) : World :=
  let l := {| l_type := type; l_callback := callback; l_capture := capture |} in
  let n := element w in
  if existsb (Listener_eqb l) (listeners n) then w
  else set_element {| hover := hover n;
                      containsActiveElement := containsActiveElement n;
                      listeners := listeners n ++ [l] |} w.

(** [node.removeEventListener( type, callback )]: the capture flag is left
    out, so it is [false], and only the entry (type, callback, false) is
    removed. *)
Definition removeEventListener (type : EventType) (callback : Handler)
    (w : World) : World :=
  let l := {| l_type := type; l_callback := callback; l_capture := false |} in
  let n := element w in
  set_element {| hover := hover n;
                 containsActiveElement := containsActiveElement n;
                 listeners := filter (fun k => negb (Listener_eqb l k))
                                     (listeners n) |} w.

(** *** useDebouncedShowMovers *)

(** [ref && ref.current.matches( ':hover' )] *)
Definition getIsHovered (w : World) : result jsval :=
  match ref w with
  | None => Ok VUndefined
  | Some r =>
      match current r with
      | None => Throw TypeError
      | Some region => Ok (VBool (hover (element w)))
      end
  end.

(** [shouldHideMovers] of the render whose [isFocused] is [isFocused_c]. *)
Definition shouldHideMovers (isFocused_c : bool) (w : World) : result bool :=
  isHovered <- getIsHovered w ;;
  Ok (negb isFocused_c && negb (truthy isHovered)).

(** [debouncedShowMovers] of a render whose [showMovers] is [showMovers_c]. *)
Definition debouncedShowMovers (showMovers_c : bool) (event : option nat)
    (w : World) : World :=
  let w1 := stopPropagation event w in
  let w2 := match timeoutRef w1 with
            | Some timeout => clearTimeout timeout w1
            | None => w1
            end in
  if negb showMovers_c then setShowMovers true w2 else w2.

(** The function passed to [setTimeout] by [debouncedHideMovers]. *)
Definition hideCallback (isFocused_c : bool) (w : World) : result World :=
  should <- shouldHideMovers isFocused_c w ;;
  Ok (if should then setShowMovers false w else w).

(** [debouncedHideMovers] of a render whose [isFocused] is [isFocused_c]. *)
Definition debouncedHideMovers (isFocused_c : bool) (event : option nat)
    (w : World) : World :=
  let w1 := stopPropagation event w in
  let '(h, w2) := setTimeout isFocused_c w1 in
  set_timeoutRef (Some h) w2.

(** The window runs the callback of pending timer [h]: the timer leaves the
    pending list, then its callback is called.  A handle that is not pending
    does nothing. *)
Definition fire (h : positive) (w : World) : result World :=
  match find (fun t => Pos.eqb (handle t) h) (timers w) with
  | Some t => hideCallback (t_isFocused t) (clearTimeout h w)
  | None => Ok w
  end.

(** *** useShowMoversGestures *)

(** [ref && ref.current.contains( document.activeElement )] *)
Definition isFocusedWithin (w : World) : result jsval :=
  match ref w with
  | None => Ok VUndefined
  | Some r =>
      match current r with
      | None => Throw TypeError
      | Some region => Ok (VBool (containsActiveElement (element w)))
      end
  end.

(** Calling one of the two listeners of the effect.  Each calls the
    [debouncedShowMovers] / [debouncedHideMovers] of the render it was
    created in. *)
Definition call (f : Handler) (w : World) : result World :=
  match f with
  | handleOnFocus _ c =>
      within <- isFocusedWithin w ;;
      Ok (if truthy within
          then debouncedShowMovers (c_showMovers c) None (setIsFocused true w)
          else w)
  | handleOnBlur _ c =>
      within <- isFocusedWithin w ;;
      Ok (if negb (truthy within)
          then debouncedHideMovers (c_isFocused c) None (setIsFocused false w)
          else w)
  end.

(** The body of the effect, run after a render with the state of [w]. *)
Definition effect (w : World) : result World :=
  match ref w with
  | None => Throw TypeError                 (* ref.current of undefined *)
  | Some r =>
      let node := current r in
      let run := effectRuns w in
      let c := {| c_showMovers := showMovers w; c_isFocused := isFocused w |} in
      let w1 :=
        match node with
        | Some region =>
            if negb (registerRef w)
            then set_registerRef true
                   (addEventListener blur (handleOnBlur run c) true
                      (addEventListener focus (handleOnFocus run c) true w))
            else w
        | None => w
        end in
      Ok (set_effect
            (Some {| cl_node := node; cl_run := run; cl_closure := c |})
            (S run) w1)
  end.

(** The function the effect returned. *)
Definition cleanup (cl : Cleanup) (w : World) : World :=
  match cl_node cl with
  | Some region =>
      removeEventListener blur (handleOnBlur (cl_run cl) (cl_closure cl))
        (removeEventListener focus
           (handleOnFocus (cl_run cl) (cl_closure cl)) w)
  | None => w
  end.

(** *** React driving the hooks *)

(** A world before the first render: [useState( false )] twice, [useRef()],
    [useRef( false )], nothing pending. *)
Definition initial (r : option RefObject) (timeout : Z) : World :=
  {| ref := r; debounceTimeout := timeout;
     element := {| hover := false; containsActiveElement := false;
                   listeners := [] |};
     timers := []; nextHandle := 1%positive; stopped := [];
     showMovers := false; isFocused := false;
     timeoutRef := None; registerRef := false;
     effectCleanup := None; effectRuns := 0%nat |}.

(** First commit: the effect runs. *)
Definition mount (w : World) : result World := effect w.

(** After a state update React renders again; the dependency list of the
    effect ([debouncedShowMovers], [debouncedHideMovers]) changed exactly when
    [showMovers] or [isFocused] did, and then the previous cleanup and the
    effect run again. *)
Definition rerender (before after : World) : result World :=
  if Bool.eqb (showMovers before) (showMovers after)
     && Bool.eqb (isFocused before) (isFocused after)
  then Ok after
  else effect (match effectCleanup after with
               | Some cl => cleanup cl after
               | None => after
               end).

(** Unmount: React detaches the ref and calls the last cleanup.  Neither hook
    registers anything else to run at unmount. *)
Definition unmount (w : World) : World :=
  let w1 := match effectCleanup w with
            | Some cl => cleanup cl w
            | None => w
            end in
  set_effect None (effectRuns w1)
    (set_ref (option_map (fun _ => {| current := None |}) (ref w1)) w1).

(** What can happen to a mounted toolbar. *)
Inductive Action : Type :=
| MouseMove (e : nat)       (* gestures.onMouseMove( e ) *)
| MouseLeave (e : nat)      (* gestures.onMouseLeave( e ) *)
| Hover (b : bool)          (* the pointer enters / leaves the element *)
| Focus (b : bool)          (* focus moves into / out of the element *)
| Fire (h : positive).      (* the window runs pending timer h *)

Definition set_hover (b : bool) (w : World) : World :=
  let n := element w in
  set_element {| hover := b;
                 containsActiveElement := containsActiveElement n;
                 listeners := listeners n |} w.

Definition set_containsActiveElement (b : bool) (w : World) : World :=
  let n := element w in
  set_element {| hover := hover n;
                 containsActiveElement := b;
                 listeners := listeners n |} w.

(** The element dispatches an event of [type] to its listeners. *)
Fixpoint dispatch (type : EventType) (ls : list Listener) (w : World)
  : result World :=
  match ls with
  | [] => Ok w
  | l :: rest =>
      if EventType_eqb (l_type l) type
      then w1 <- call (l_callback l) w ;; dispatch type rest w1
      else dispatch type rest w
  end.

(** The gestures of the current render close over the current state. *)
Definition onMouseMove (e : nat) (w : World) : World :=
  debouncedShowMovers (showMovers w) (Some e) w.

Definition onMouseLeave (e : nat) (w : World) : World :=
  debouncedHideMovers (isFocused w) (Some e) w.

Definition act (a : Action) (w : World) : result World :=
  match a with
  | MouseMove e => Ok (onMouseMove e w)
  | MouseLeave e => Ok (onMouseLeave e w)
  | Hover b => Ok (set_hover b w)
  | Focus b =>
      let w1 := set_containsActiveElement b w in
      dispatch (if b then focus else blur) (listeners (element w1)) w1
  | Fire h => fire h w
  end.

Definition step (a : Action) (w : World) : result World :=
  w1 <- act a w ;; rerender w w1.

Fixpoint run (l : list Action) (w : World) : result World :=
  match l with
  | [] => Ok w
  | a :: rest => w1 <- step a w ;; run rest w1
  end.

(** A ref whose element is attached. *)
Definition resolved : option RefObject := Some {| current := Some region |}.

(** A ref whose element is not attached (yet, or any more). *)
Definition unresolved : option RefObject := Some {| current := None |}.

(** The states of the visibility state machine: Hidden or Visible with no
    timer pending, or with the one pending timer that [timeoutRef] holds. *)
Definition tracked (w : World) : Prop :=
  timers w = []
  \/ exists t, timers w = [t] /\ timeoutRef w = Some (handle t).

(** The pending timer with handle [h], if any. *)
Definition pending (h : positive) (w : World) : option Timer :=
  find (fun t => Pos.eqb (handle t) h) (timers w).

(** Handles are handed out in increasing order: every pending timer has a
    handle below the next one. *)
Definition fresh (w : World) : Prop :=
  Forall (fun t => (handle t < nextHandle w)%positive) (timers w).

(** The two listeners the first run of the effect adds on an attached
    element: their handlers belong to the first render, where both state
    cells are [false]. *)
Definition firstListeners : list Listener :=
  [ {| l_type := focus;
       l_callback :=
         handleOnFocus 0 {| c_showMovers := false; c_isFocused := false |};
       l_capture := true |};
    {| l_type := blur;
       l_callback :=
         handleOnBlur 0 {| c_showMovers := false; c_isFocused := false |};
       l_capture := true |} ].

(** The state cell follows the DOM, and the timer [timeoutRef] holds, while
    pending, was armed with the current [isFocused]. *)
Definition synced (w : World) : Prop :=
  isFocused w = containsActiveElement (element w)
  /\ forall t, In t (timers w) -> timeoutRef w = Some (handle t) ->
               t_isFocused t = isFocused w.

(** A mounted toolbar on an attached element. *)
Definition wired (w : World) : Prop :=
  ref w = resolved
  /\ registerRef w = true
  /\ listeners (element w) = firstListeners.

End Debouncer.

(** ** Positioning by a frame loop *)

Module FrameLoop.

(** The part of a [DOMRect] that [updatePosition] reads: [x] and [width];
    [left] is derived from them as the DOM defines it. *)
Record Rect : Type := { x : Z; width : Z }.

Definition left (r : Rect) : Z := Z.min (x r) (x r + width r).

(** [style.transform] is either untouched or [translateX(<t>px)];
    [style.opacity] is either untouched or the number assigned. *)
Record Style : Type := { transform : option Z; opacity : option Z }.

(** [node.parentElement], the element that is measured and moved.  [rect] is
    what [getBoundingClientRect] returns: the box as it is drawn, with the
    transform in effect. *)
Record Parent : Type := { rect : Rect; style : Style }.

(** [ref.current] *)
Record Element : Type := { parentElement : option Parent }.

Record World : Type :=
  { current : option Element;          (* ref.current *)
    containerNode : option Rect;       (* querySelector( EDITOR_SELECTOR ) and
                                          its bounding rect *)
    rafLoopRef : option positive;
    frames : list positive;            (* pending requestAnimationFrame *)
    nextHandle : positive }.

(** The box [r] drawn [t] pixels to the right. *)
Definition translateX (t : Z) (r : Rect) : Rect :=
  {| x := x r + t; width := width r |}.

(** The pixels the transform of [s] moves the box by. *)
Definition translation (s : Style) : Z :=
  match transform s with
  | Some t => t
  | None => 0
  end.

(** [targetNode.style.transform = `translateX(${ t }px)`]: the new transform
    replaces the one in effect, and the box is drawn where the new one puts
    it. *)
Definition set_transform (t : Z) (w : World) : World :=
  match current w with
  | Some {| parentElement := Some p |} =>
      {| current :=
           Some {| parentElement :=
                     Some {| rect := translateX (t - translation (style p))
                                                (rect p);
                             style := {| transform := Some t;
                                         opacity := opacity (style p) |} |} |};
         containerNode := containerNode w; rafLoopRef := rafLoopRef w;
         frames := frames w; nextHandle := nextHandle w |}
  | _ => w
  end.

(** [targetNode.style.opacity = v] *)
Definition set_opacity (v : Z) (w : World) : World :=
  match current w with
  | Some {| parentElement := Some p |} =>
      {| current :=
           Some {| parentElement :=
                     Some {| rect := rect p;
                             style := {| transform := transform (style p);
                                         opacity := Some v |} |} |};
         containerNode := containerNode w; rafLoopRef := rafLoopRef w;
         frames := frames w; nextHandle := nextHandle w |}
  | _ => w
  end.

(** The editor is laid out anew: its bounding rect becomes [container]. *)
Definition set_containerRect (container : Rect) (w : World) : World :=
  {| current := current w; containerNode := Some container;
     rafLoopRef := rafLoopRef w; frames := frames w;
     nextHandle := nextHandle w |}.

Definition set_rafLoopRef (v : option positive) (w : World) : World :=
  {| current := current w; containerNode := containerNode w; rafLoopRef := v;
     frames := frames w; nextHandle := nextHandle w |}.

Definition set_frames (v : list positive) (n : positive) (w : World) : World :=
  {| current := current w; containerNode := containerNode w;
     rafLoopRef := rafLoopRef w; frames := v; nextHandle := n |}.

(** MATH values *)
Definition moverWidth : Z := 48.
Definition buffer : Z := 8.
Definition offsetLeft : Z := moverWidth + buffer.

(** Computed values *)
Definition containerRight (container : Rect) : Z := width container + x container.
Definition nodeRight (node : Rect) : Z := x node + width node.
Definition totalOffsetLeft (node : Rect) : Z := x node - offsetLeft.

Definition isOverflowLeft (container node : Rect) : bool :=
  totalOffsetLeft node <? x container.

Definition isOverflowRight (container node : Rect) : bool :=
  containerRight container <? nodeRight node.

(** The variable [nextTranslateX] after the [if] / [else if]; [None] is
    [undefined]. *)
Definition nextTranslateX (container node : Rect) : option Z :=
  if isOverflowLeft container node
  then Some (x container - totalOffsetLeft node)
  else if isOverflowRight container node
       then Some (containerRight container - nodeRight node - buffer)
       else None.

(** [if ( nextTranslateX ) { targetNode.style.transform = .. }]:
    [undefined] and [0] are falsy and leave the transform as it is. *)
Definition assignTransform (next : option Z) (w : World) : World :=
  match next with
  | Some t => if t =? 0 then w else set_transform t w
  | None => w
  end.

Definition updatePosition (w : World) : result World :=
  match current w with
  | None => Ok w                                   (* if ( ! node ) return *)
  | Some node =>
      let targetNode := parentElement node in
      match containerNode w with
      | None => Throw TypeError      (* containerNode.getBoundingClientRect *)
      | Some container =>
          match targetNode with
          | None => Throw TypeError     (* targetNode.getBoundingClientRect *)
          | Some target =>
              if left (rect target) <? 0 then Ok w  (* if ( nodeLeft < 0 ) *)
              else
                let next := nextTranslateX container (rect target) in
                Ok (set_opacity 1 (assignTransform next w))
          end
      end
  end.

(** The effect of [useHideOnInitialRender]. *)
Definition hideOnInitialRender (w : World) : result World :=
  match current w with
  | None => Ok w
  | Some node =>
      match parentElement node with
      | None => Throw TypeError                      (* targetNode.style *)
      | Some target => Ok (set_opacity 0 w)
      end
  end.

Definition requestAnimationFrame (w : World) : positive * World :=
  let h := nextHandle w in
  (h, set_frames (frames w ++ [h]) (Pos.succ h) w).

Definition cancelAnimationFrame (h : positive) (w : World) : World :=
  set_frames (filter (fun k => negb (Pos.eqb k h)) (frames w)) (nextHandle w) w.

(** [rafCallback] with [updatePosition] as its [callback]. *)
Definition rafCallback (w : World) : result World :=
  w1 <- updatePosition w ;;
  let '(h, w2) := requestAnimationFrame w1 in
  Ok (set_rafLoopRef (Some h) w2).

(** The effect of [useRequestAnimationFrameLoop] and the function it
    returns. *)
Definition effect (w : World) : World :=
  let '(h, w1) := requestAnimationFrame w in
  set_rafLoopRef (Some h) w1.

Definition cancelAnimationLoop (w : World) : World :=
  match rafLoopRef w with
  | Some h => cancelAnimationFrame h w
  | None => w
  end.

Definition mount (w : World) : result World :=
  w1 <- hideOnInitialRender w ;; Ok (effect w1).

Definition unmount (w : World) : World := cancelAnimationLoop w.

(** The window runs pending frame [h]: it leaves the pending list and
    [rafCallback] is called. *)
Definition frame (h : positive) (w : World) : result World :=
  if existsb (Pos.eqb h) (frames w)
  then rafCallback (cancelAnimationFrame h w)
  else Ok w.

(** The style of the element that is moved, when there is one. *)
Definition targetStyle (w : World) : option Style :=
  match current w with
  | Some {| parentElement := Some p |} => Some (style p)
  | _ => None
  end.

(** Its box as drawn, when there is one. *)
Definition targetRect (w : World) : option Rect :=
  match current w with
  | Some {| parentElement := Some p |} => Some (rect p)
  | _ => None
  end.

(** A frame loop world around a measured container and anchor. *)
Definition measured (container node : Rect) (s : Style) : World :=
  {| current := Some {| parentElement := Some {| rect := node; style := s |} |};
     containerNode := Some container;
     rafLoopRef := None; frames := []; nextHandle := 1%positive |}.

(** The loop invariant: the one pending frame is the one [rafLoopRef]
    holds. *)
Definition chained (w : World) : Prop :=
  exists h, rafLoopRef w = Some h /\ frames w = [h].

(** The anchor is not ready: no node behind the ref, or a measured box whose
    left edge is negative. *)
Definition notReady (w : World) : Prop :=
  current w = None
  \/ exists target container,
       current w = Some {| parentElement := Some target |}
       /\ containerNode w = Some container
       /\ left (rect target) < 0.

(** The window runs the frames [hs] one after the other. *)
Fixpoint frames_run (hs : list positive) (w : World) : result World :=
  match hs with
  | [] => Ok w
  | h :: rest => w1 <- frame h w ;; frames_run rest w1
  end.

End FrameLoop.

(** ** Positioning after a settle delay and on resize *)

Module Resize.

Record Style : Type := { transform : option Z; opacity : option Z }.

(** [ref.current]: the [x] of its bounding rect, its
    [data-transform-offset] attribute and the style of its parent.  The
    attribute is written by [reposition] alone, as the text of a number, which
    [parseFloat] reads back; [None] is the missing attribute. *)
Record Element : Type :=
  { nodeX : Z; dataTransformOffset : option Z; parentElement : option Style }.

Record World : Type :=
  { containerNode : option Element;     (* ref.current when the effect ran *)
    editorNode : option Z;              (* querySelector( EDITOR_SELECTOR ):
                                           the x of its bounding rect *)
    transformTimeout : option positive;
    timers : list positive;             (* pending setTimeout *)
    frames : list positive;             (* pending requestAnimationFrame *)
    resizeListener : bool;              (* reposition is on window 'resize' *)
    nextHandle : positive }.

Definition set_containerNode (v : option Element) (w : World) : World :=
  {| containerNode := v; editorNode := editorNode w;
     transformTimeout := transformTimeout w; timers := timers w;
     frames := frames w; resizeListener := resizeListener w;
     nextHandle := nextHandle w |}.

Definition set_transformTimeout (v : option positive) (w : World) : World :=
  {| containerNode := containerNode w; editorNode := editorNode w;
     transformTimeout := v; timers := timers w;
     frames := frames w; resizeListener := resizeListener w;
     nextHandle := nextHandle w |}.

Definition set_timers (v : list positive) (n : positive) (w : World) : World :=
  {| containerNode := containerNode w; editorNode := editorNode w;
     transformTimeout := transformTimeout w; timers := v;
     frames := frames w; resizeListener := resizeListener w;
     nextHandle := n |}.

Definition set_frames (v : list positive) (n : positive) (w : World) : World :=
  {| containerNode := containerNode w; editorNode := editorNode w;
     transformTimeout := transformTimeout w; timers := timers w;
     frames := v; resizeListener := resizeListener w;
     nextHandle := n |}.

Definition set_resizeListener (v : bool) (w : World) : World :=
  {| containerNode := containerNode w; editorNode := editorNode w;
     transformTimeout := transformTimeout w; timers := timers w;
     frames := frames w; resizeListener := v;
     nextHandle := nextHandle w |}.

Definition POPOVER_RENDER_TIMEOUT : Z := 30.
Definition outerOffset : Z := 48.
Definition buffer : Z := 8.

(** [parseFloat( containerNode.getAttribute( DATA_ATTR ) || 0 )] *)
Definition currentOffset (node : Element) : Z :=
  match dataTransformOffset node with
  | Some v => v
  | None => 0
  end.

Definition innerOffset (editorX : Z) (node : Element) : Z := nodeX node - editorX.

Definition diff (editorX : Z) (node : Element) : Z :=
  outerOffset - innerOffset editorX node + currentOffset node.

Definition nextTranslateX (editorX : Z) (node : Element) : Z :=
  if 0 <? diff editorX node then diff editorX node + buffer else 0.

Definition clearTransformTimeout (w : World) : World :=
  match transformTimeout w with
  | Some h =>
      set_timers (filter (fun k => negb (Pos.eqb k h)) (timers w))
                 (nextHandle w) w
  | None => w
  end.

(** The function [reposition] hands to [requestAnimationFrame]. *)
Definition repositionFrame (w : World) : result World :=
  match containerNode w with
  | None => Ok w                          (* if ( ! containerNode ) return *)
  | Some node =>
      match editorNode w with
      | None => Throw TypeError       (* editorNode.getBoundingClientRect *)
      | Some editorX =>
          let next := nextTranslateX editorX node in
          match parentElement node with
          | None => Throw TypeError                   (* targetNode.style *)
          | Some s =>
              Ok (set_containerNode
                    (Some {| nodeX := nodeX node;
                             dataTransformOffset := Some next;
                             parentElement :=
                               Some {| transform := Some next;
                                       opacity := opacity s |} |}) w)
          end
      end
  end.

Definition reposition (w : World) : World :=
  let h := nextHandle w in
  set_frames (frames w ++ [h]) (Pos.succ h) w.

(** [targetNode.style.opacity = v] for the parent [s] of [node]. *)
Definition set_opacity (v : Z) (node : Element) (s : Style) (w : World)
  : World :=
  set_containerNode
    (Some {| nodeX := nodeX node;
             dataTransformOffset := dataTransformOffset node;
             parentElement :=
               Some {| transform := transform s; opacity := Some v |} |}) w.

(** The function handed to [setTimeout]. *)
Definition settle (w : World) : result World :=
  match containerNode w with
  | None => Throw TypeError                (* containerNode.parentElement *)
  | Some node =>
      match parentElement node with
      | None => Throw TypeError                       (* targetNode.style *)
      | Some s =>
          Ok (set_opacity 1 node s (reposition (set_opacity 0 node s w)))
      end
  end.

(** The layout effect and the function it returns. *)
Definition effect (w : World) : World :=
  let w1 := clearTransformTimeout w in
  let h := nextHandle w1 in
  let w2 := set_timers (timers w1 ++ [h]) (Pos.succ h) w1 in
  set_resizeListener true (set_transformTimeout (Some h) w2).

Definition cleanup (w : World) : World :=
  set_resizeListener false (clearTransformTimeout w).

(** The window runs a pending timer, runs a pending frame, or is resized. *)
Definition fire (h : positive) (w : World) : result World :=
  if existsb (Pos.eqb h) (timers w)
  then settle (set_timers (filter (fun k => negb (Pos.eqb k h)) (timers w))
                          (nextHandle w) w)
  else Ok w.

Definition frame (h : positive) (w : World) : result World :=
  if existsb (Pos.eqb h) (frames w)
  then repositionFrame
         (set_frames (filter (fun k => negb (Pos.eqb k h)) (frames w))
                     (nextHandle w) w)
  else Ok w.

Definition resize (w : World) : World :=
  if resizeListener w then reposition w else w.

(** At most the settle timer that [transformTimeout] holds is pending. *)
Definition settled (w : World) : Prop :=
  timers w = []
  \/ exists h, timers w = [h] /\ transformTimeout w = Some h.

End Resize.

(** ** The gesture hook kept in the toolbar's own file *)

(** [useShowMoversGestures] as [block-toolbar/index.js] defines it for
    itself: no focus tracking, a timer that hides unconditionally, and both
    callbacks guarded by [ref.current]. *)
Module LocalGestures.

Record Timer : Type := { handle : positive; delay : Z }.

Record World : Type :=
  { current : option Debouncer.Element;     (* ref.current *)
    debounceTimeout : Z;
    showMovers : bool;
    timeoutRef : option positive;
    timers : list Timer;
    nextHandle : positive;
    stopped : list nat }.

Definition setShowMovers (v : bool) (w : World) : World :=
  {| current := current w; debounceTimeout := debounceTimeout w;
     showMovers := v; timeoutRef := timeoutRef w; timers := timers w;
     nextHandle := nextHandle w; stopped := stopped w |}.

Definition stopPropagation (event : nat) (w : World) : World :=
  {| current := current w; debounceTimeout := debounceTimeout w;
     showMovers := showMovers w; timeoutRef := timeoutRef w;
     timers := timers w; nextHandle := nextHandle w;
     stopped := event :: stopped w |}.

Definition clearTimeout (h : positive) (w : World) : World :=
  {| current := current w; debounceTimeout := debounceTimeout w;
     showMovers := showMovers w; timeoutRef := timeoutRef w;
     timers := filter (fun t => negb (Pos.eqb (handle t) h)) (timers w);
     nextHandle := nextHandle w; stopped := stopped w |}.

(** [timeoutRef.current = setTimeout( .., debounceTimeout )] *)
Definition armTimeout (w : World) : World :=
  let h := nextHandle w in
  {| current := current w; debounceTimeout := debounceTimeout w;
     showMovers := showMovers w; timeoutRef := Some h;
     timers := timers w ++ [{| handle := h; delay := debounceTimeout w |}];
     nextHandle := Pos.succ h; stopped := stopped w |}.

(** [onMouseMove] of a render whose [showMovers] is [showMovers_c]. *)
Definition onMouseMove (showMovers_c : bool) (event : nat) (w : World)
  : World :=
  match current w with
  | None => w                                    (* if ( ! node ) return *)
  | Some _ =>
      let w1 := stopPropagation event w in
      let w2 := match timeoutRef w1 with
                | Some timeout => clearTimeout timeout w1
                | None => w1
                end in
      if negb showMovers_c then setShowMovers true w2 else w2
  end.

(** [onMouseLeave] of a render whose [showMovers] is [showMovers_c]. *)
Definition onMouseLeave (showMovers_c : bool) (event : nat) (w : World)
  : World :=
  match current w with
  | None => w                                    (* if ( ! node ) return *)
  | Some _ =>
      let w1 := stopPropagation event w in
      if showMovers_c then armTimeout w1 else w1
  end.

(** The window runs pending timer [h]; its callback is
    [setShowMovers( false )]. *)
Definition fire (h : positive) (w : World) : World :=
  if existsb (fun t => Pos.eqb (handle t) h) (timers w)
  then setShowMovers false (clearTimeout h w)
  else w.

(** The gestures a render returns.  [onMouseMove] has an empty dependency
    list, so it is always the callback of the first render, where
    [showMovers] is [false]; [onMouseLeave] depends on [showMovers]. *)
Definition gestureMove (event : nat) (w : World) : World :=
  onMouseMove false event w.

Definition gestureLeave (event : nat) (w : World) : World :=
  onMouseLeave (showMovers w) event w.

Definition fresh (w : World) : Prop :=
  Forall (fun t => (handle t < nextHandle w)%positive) (timers w).

End LocalGestures.

(** ** What the toolbar renders *)

(** [BlockToolbar] of [block-toolbar/index.js]: the mapping of [useSelect]
    and the conditions of the returned element. *)
Module Toolbar.

Inductive Mode : Type := visual | html.

Definition Mode_eqb (a b : Mode) : bool :=
  match a, b with
  | visual, visual | html, html => true
  | _, _ => false
  end.

(** What the [core/block-editor] store answers. *)
Record Store : Type :=
  { getSelectedBlockClientIds : list String.string;
    isBlockValid : String.string -> bool;
    getBlockMode : String.string -> Mode;
    (* getBlockListSettings( root ).__experimentalUIParts.hasMovers,
       [None] when any link of that chain is undefined *)
    uiPartsHasMovers : option bool }.

(** The object [useSelect] returns; [None] is [null] for [isValid] and
    [mode], [undefined] for [hasMovers]. *)
Record Selected : Type :=
  { blockClientIds : list String.string;
    isValid : option bool;
    mode : option Mode;
    hasMovers_prop : option bool }.

Definition select (st : Store) : Selected :=
  let selectedBlockClientIds := getSelectedBlockClientIds st in
  {| blockClientIds := selectedBlockClientIds;
     isValid :=
       match selectedBlockClientIds with
       | [ id ] => Some (isBlockValid st id)
       | _ => None
       end;
     mode :=
       match selectedBlockClientIds with
       | [ id ] => Some (getBlockMode st id)
       | _ => None
       end;
     hasMovers_prop := uiPartsHasMovers st |}.

(** The parts of the element that depend on state. *)
Record Rendered : Type :=
  { withMovers : bool;          (* class is-withMovers *)
    moverOpacity : Z;
    moverShifted : bool;        (* translateX(100%) rather than (0px) *)
    switcher : bool;            (* the BlockSwitcher wrapper *)
    slots : bool }.             (* the two controls slots *)

Definition BlockToolbar (st : Store) (showMovers : bool) : option Rendered :=
  let s := select st in
  let hasMovers := match hasMovers_prop s with
                   | Some b => b
                   | None => true                     (* hasMovers = true *)
                   end in
  if (length (blockClientIds s) =? 0)%nat then None
  else
    let shouldShowVisualToolbar :=
      match isValid s with
      | Some true =>
          match mode s with
          | Some m => Mode_eqb m visual
          | None => false
          end
      | _ => false
      end in
    let isMultiToolbar := (1 <? length (blockClientIds s))%nat in
    let shouldShowMovers := showMovers && hasMovers in
    Some {| withMovers := shouldShowMovers;
            moverOpacity := if shouldShowMovers then 1 else 0;
            moverShifted := negb shouldShowMovers;
            switcher := shouldShowVisualToolbar || isMultiToolbar;
            slots := shouldShowVisualToolbar && negb isMultiToolbar |}.

End Toolbar.

(** ** The post author block *)

(** [PostAuthorEdit]: which author it shows and the attributes it sets while
    rendering. *)
Module PostAuthor.

Definition DEFAULT_AVATAR_SIZE : Z := 24.

(** A user record of the [core] store; [avatar_urls] maps a size to a URL. *)
Record Author : Type :=
  { a_id : Z;
    a_name : String.string;
    a_description : String.string;
    avatar_urls : list (Z * String.string) }.

(** [avatar_urls[ size ]]; [None] is [undefined]. *)
Fixpoint lookup (size : Z) (urls : list (Z * String.string))
  : option String.string :=
  match urls with
  | [] => None
  | (k, v) :: rest => if k =? size then Some v else lookup size rest
  end.

(** The block attributes; [None] is an attribute that is not set. *)
Record Attributes : Type :=
  { id : option Z;
    name : option String.string;
    description : option String.string;
    avatarSize : option Z;
    avatarUrl : option String.string;
    showAvatar : bool;
    showBio : bool;
    byline : String.string }.

(** [!! n] for a number attribute. *)
Definition truthyNumber (n : option Z) : bool :=
  match n with
  | Some z => negb (z =? 0)
  | None => false
  end.

Inductive Rendered : Type :=
| Placeholder                       (* 'Post Author Placeholder' *)
| Display (attributes : Attributes) (author : Author).

(** The id of the author to show: the attribute when it is truthy, else the
    author of the post. *)
Definition authorId (postAuthor : Z) (attributes : Attributes) : Z :=
  match id attributes with
  | Some z => if truthyNumber (Some z) then z else postAuthor
  | None => postAuthor
  end.

Definition effectiveAvatarSize (attributes : Attributes) : Z :=
  match avatarSize attributes with
  | Some z => if truthyNumber (Some z) then z else DEFAULT_AVATAR_SIZE
  | None => DEFAULT_AVATAR_SIZE
  end.

(** One render: [getEntityRecord] is the lookup of the [core] store,
    [postAuthor] the author of the post.  [Display] carries the attributes
    after the [setAttributes] call of the render. *)
Definition PostAuthorEdit (getEntityRecord : Z -> option Author)
    (postAuthor : Z) (attributes : Attributes) : Rendered :=
  match getEntityRecord (authorId postAuthor attributes) with
  | None => Placeholder
  | Some author =>
      let size := effectiveAvatarSize attributes in
      Display {| id := Some (a_id author);
                 name := Some (a_name author);
                 description := Some (a_description author);
                 avatarSize := Some size;
                 avatarUrl := lookup size (avatar_urls author);
                 showAvatar := showAvatar attributes;
                 showBio := showBio attributes;
                 byline := byline attributes |}
              author
  end.

(** The store files each record under its own id. *)
Definition keyed (getEntityRecord : Z -> option Author) : Prop :=
  forall k author, getEntityRecord k = Some author -> a_id author = k.

End PostAuthor.

(** * Properties of the debouncer *)

Section DebouncerFacts.

Import Debouncer.

(** A hide request appends one timer and cancels none. *)
Lemma debouncedHideMovers_timers (f : bool) (event : option nat) (w : World) :
  timers (debouncedHideMovers f event w)
  = timers w ++ [{| handle := nextHandle w; delay := debounceTimeout w;
                    t_isFocused := f |}].
Proof. destruct event; reflexivity. Qed.

Lemma debouncedHideMovers_timeoutRef (f : bool) (event : option nat)
    (w : World) :
  timeoutRef (debouncedHideMovers f event w) = Some (nextHandle w).
Proof. destruct event; reflexivity. Qed.

Lemma debouncedHideMovers_count (f : bool) (event : option nat) (w : World) :
  length (timers (debouncedHideMovers f event w)) = S (length (timers w)).
Proof.
  rewrite debouncedHideMovers_timers, length_app. simpl.
  now rewrite Nat.add_1_r.
Qed.

(** C1, evaluated on the code: after the toolbar is mounted, two hide requests
    in a row (the pointer leaves the two elements that carry the gestures)
    leave two hide timers pending; the second request cancelled nothing. *)
Theorem two_hide_requests_two_pending_timers :
  exists w,
    (w0 <- mount (initial resolved 500) ;; run [MouseLeave 1; MouseLeave 2] w0)
    = Ok w
    /\ timers w = [ {| handle := 1; delay := 500; t_isFocused := false |};
                    {| handle := 2; delay := 500; t_isFocused := false |} ]
    /\ timeoutRef w = Some 2%positive.
Proof.
  eexists. split; [ vm_compute; reflexivity | split; reflexivity ].
Qed.

(** A show request after them cancels the second timer only. *)
Lemma show_after_two_hides_leaves_a_timer :
  exists w,
    (w0 <- mount (initial resolved 500) ;;
     run [MouseLeave 1; MouseLeave 2; MouseMove 3] w0) = Ok w
    /\ timers w = [ {| handle := 1; delay := 500; t_isFocused := false |} ].
Proof.
  eexists. split; [ vm_compute; reflexivity | reflexivity ].
Qed.

(** C2, evaluated on the code: the toolbar is mounted, a hide request arms a
    timer, and the toolbar is unmounted before the timer fires.  The timer is
    still pending afterwards and both listeners are still on the element:
    nothing clears [timeoutRef] at unmount, and [removeEventListener] is
    called without the capture flag the listeners were added with. *)
Theorem unmount_leaves_timer_and_listeners :
  exists w,
    (w0 <- mount (initial resolved 500) ;; run [MouseLeave 1] w0) = Ok w
    /\ timers (unmount w)
       = [ {| handle := 1; delay := 500; t_isFocused := false |} ]
    /\ listeners (element (unmount w))
       = [ {| l_type := focus;
              l_callback :=
                handleOnFocus 0 {| c_showMovers := false;
                                   c_isFocused := false |};
              l_capture := true |};
           {| l_type := blur;
              l_callback :=
                handleOnBlur 0 {| c_showMovers := false;
                                  c_isFocused := false |};
              l_capture := true |} ].
Proof.
  eexists. split; [ vm_compute; reflexivity | split; reflexivity ].
Qed.

(** The cleanup never removes a listener that was added with the capture
    flag. *)
Lemma removeEventListener_keeps_capturing (type : EventType) (f : Handler)
    (w : World) :
  forallb l_capture (listeners (element w)) = true ->
  listeners (element (removeEventListener type f w)) = listeners (element w).
Proof.
  unfold removeEventListener. simpl.
  induction (listeners (element w)) as [|k ks IH]; simpl; intros H.
  - reflexivity.
  - apply andb_prop in H as [Hk Hks].
    unfold Listener_eqb at 1. simpl. rewrite Hk.
    rewrite andb_false_r. simpl. now rewrite IH.
Qed.

(** C3, evaluated on the code: with a ref object whose [current] is null the
    hover query and the focus-within query both raise a [TypeError], and so
    does the callback of a hide timer. *)
Theorem unresolved_ref_queries_throw (w : World) (f : bool) :
  getIsHovered (set_ref unresolved w) = Throw TypeError
  /\ isFocusedWithin (set_ref unresolved w) = Throw TypeError
  /\ hideCallback f (set_ref unresolved w) = Throw TypeError.
Proof. repeat split. Qed.

(** The same on a run of the toolbar: the timer that survives the unmount
    fires on the detached ref. *)
Lemma timer_after_unmount_throws :
  exists w,
    (w0 <- mount (initial resolved 500) ;; run [MouseLeave 1] w0) = Ok w
    /\ fire 1 (unmount w) = Throw TypeError.
Proof.
  eexists. split; [ vm_compute; reflexivity | reflexivity ].
Qed.

(** Only a missing ref object is guarded. *)
Lemma missing_ref_queries_are_falsy (w : World) :
  ref w = None ->
  getIsHovered w = Ok VUndefined /\ isFocusedWithin w = Ok VUndefined.
Proof. unfold getIsHovered, isFocusedWithin. intros ->. now split. Qed.

(** *** Show requests *)

Lemma timers_stopPropagation (event : option nat) (w : World) :
  timers (stopPropagation event w) = timers w.
Proof. now destruct event. Qed.

Lemma clearTimeout_nothing_pending (h : positive) (w : World) :
  timers w = [] -> clearTimeout h w = w.
Proof. destruct w; simpl; intros ->; reflexivity. Qed.

Lemma clearTimeout_the_tracked (t : Timer) (w : World) :
  timers w = [t] -> timers (clearTimeout (handle t) w) = [].
Proof. simpl. intros ->. simpl. now rewrite Pos.eqb_refl. Qed.

Lemma setShowMovers_same (w : World) : setShowMovers (showMovers w) w = w.
Proof. now destruct w. Qed.

(** Where every pending timer is the one [timeoutRef] holds (no hide timer,
    or that one) the show callback of the current render leaves the flag
    visible and no timer pending; it stops the propagation of the event it is
    given; and when the movers are visible with no timer pending it does
    nothing else, so without an event the world is unchanged. *)
Theorem show_makes_visible_and_cancels (w : World) (event : option nat) :
  tracked w ->
  let w' := debouncedShowMovers (showMovers w) event w in
  showMovers w' = true
  /\ timers w' = []
  /\ (forall e, event = Some e -> In e (stopped w'))
  /\ (showMovers w = true -> timers w = [] -> w' = stopPropagation event w)
  /\ (showMovers w = true -> timers w = [] -> event = None -> w' = w).
Proof.
  intros Htracked w'. subst w'. unfold debouncedShowMovers.
  repeat split.
  - destruct (showMovers w) eqn:Hs; simpl; [ | reflexivity ].
    destruct event; simpl; destruct (timeoutRef w); simpl; exact Hs.
  - assert (Hclear :
      timers (match timeoutRef (stopPropagation event w) with
              | Some timeout => clearTimeout timeout (stopPropagation event w)
              | None => stopPropagation event w
              end) = []).
    { destruct Htracked as [Hnone | [t [Hone Href]]].
      - destruct (timeoutRef (stopPropagation event w)).
        + rewrite clearTimeout_nothing_pending;
            rewrite timers_stopPropagation; exact Hnone.
        + rewrite timers_stopPropagation; exact Hnone.
      - replace (timeoutRef (stopPropagation event w)) with (Some (handle t))
          by (destruct event; simpl; now rewrite Href).
        apply clearTimeout_the_tracked.
        now rewrite timers_stopPropagation. }
    destruct (negb (showMovers w)); [ exact Hclear | exact Hclear ].
  - intros e ->. simpl.
    destruct (timeoutRef w), (negb (showMovers w)); simpl; now left.
  - intros Hs Hnone. rewrite Hs. simpl.
    destruct (timeoutRef (stopPropagation event w)); [ | reflexivity ].
    apply clearTimeout_nothing_pending.
    now rewrite timers_stopPropagation.
  - intros Hs Hnone ->. rewrite Hs. simpl.
    destruct (timeoutRef w); [ | reflexivity ].
    now apply clearTimeout_nothing_pending.
Qed.

(** The same on the state reached by one hide request. *)
Lemma show_makes_visible_and_cancels_witness :
  let w := debouncedHideMovers false None
             (setShowMovers true (initial resolved 500)) in
  tracked w
  /\ (let w' := debouncedShowMovers (showMovers w) (Some 4%nat) w in
      showMovers w' = true
      /\ timers w' = []
      /\ (forall e, Some 4%nat = Some e -> In e (stopped w'))
      /\ (showMovers w = true -> timers w = []
          -> w' = stopPropagation (Some 4%nat) w)
      /\ (showMovers w = true -> timers w = [] -> Some 4%nat = None
          -> w' = w)).
Proof.
  split.
  - right. eexists. split; reflexivity.
  - apply (show_makes_visible_and_cancels
             (debouncedHideMovers false None
                (setShowMovers true (initial resolved 500))) (Some 4%nat)).
    right. eexists. split; reflexivity.
Defined.

(** The show callback of a stale render that saw the movers visible does not
    set the flag. *)
Lemma stale_show_keeps_hidden (event : option nat) (w : World) :
  showMovers (debouncedShowMovers true event w) = showMovers w.
Proof.
  unfold debouncedShowMovers.
  destruct event; simpl; destruct (timeoutRef w); reflexivity.
Qed.

(** C5, evaluated on the code: the pointer is over a focused toolbar, focus
    leaves it (the blur arms timer 1), the pointer leaves it (timer 2; timer 1
    is not cancelled and [timeoutRef] now holds 2) and comes back (the show
    request cancels timer 2).  The movers are visible with timer 1 pending.
    A show request in that state cancels nothing: timer 1 stays pending, and
    once the pointer is away it hides the movers. *)
Theorem show_leaves_orphan_timer_pending :
  exists w,
    (w0 <- mount (initial resolved 500) ;;
     run [Hover true; MouseMove 1; Focus true; Focus false; Hover false;
          MouseLeave 2; Hover true; MouseMove 3] w0) = Ok w
    /\ showMovers w = true
    /\ timers w = [ {| handle := 1; delay := 500; t_isFocused := false |} ]
    /\ timeoutRef w = Some 2%positive
    /\ showMovers (onMouseMove 4 w) = true
    /\ timers (onMouseMove 4 w)
       = [ {| handle := 1; delay := 500; t_isFocused := false |} ]
    /\ exists w',
         fire 1 (set_hover false (onMouseMove 4 w)) = Ok w'
         /\ showMovers w' = false.
Proof.
  eexists. split; [ vm_compute; reflexivity | ].
  repeat split. eexists. split; reflexivity.
Qed.

(** The same timer outlives a focus change: focus comes back (the show
    request of the focus handler cancels nothing either), the pointer leaves,
    and timer 1 hides the movers of a toolbar that has the focus. *)
Lemma orphan_timer_hides_focused_toolbar :
  exists w,
    (w0 <- mount (initial resolved 500) ;;
     run [Hover true; MouseMove 1; Focus true; Focus false; Hover false;
          MouseLeave 2; Hover true; MouseMove 3; Focus true; Hover false;
          MouseLeave 4; Fire 1] w0) = Ok w
    /\ showMovers w = false
    /\ isFocused w = true
    /\ containsActiveElement (element w) = true.
Proof.
  eexists. split; [ vm_compute; reflexivity | repeat split ].
Qed.

(** When the element is attached only after the mount, the listeners are
    added by the first later run of the effect, after a pointer move has shown
    the movers; their show callback belongs to that render and sets nothing.
    Once a timer has hidden the movers, focus entering the toolbar sets
    [isFocused] and leaves the movers hidden. *)
Lemma late_attach_focus_keeps_hidden :
  exists w,
    (w0 <- mount (initial unresolved 500) ;;
     run [Hover true; MouseMove 1; Hover false; MouseLeave 2; Fire 1;
          Focus true] (set_ref resolved w0)) = Ok w
    /\ showMovers w = false
    /\ isFocused w = true
    /\ listeners (element w)
       = [ {| l_type := focus;
              l_callback :=
                handleOnFocus 1 {| c_showMovers := true;
                                   c_isFocused := false |};
              l_capture := true |};
           {| l_type := blur;
              l_callback :=
                handleOnBlur 1 {| c_showMovers := true;
                                  c_isFocused := false |};
              l_capture := true |} ].
Proof.
  eexists. split; [ vm_compute; reflexivity | repeat split ].
Qed.

(** *** Handles stay fresh along every run *)

Lemma fresh_same (w w' : World) :
  timers w' = timers w -> nextHandle w' = nextHandle w ->
  fresh w -> fresh w'.
Proof. unfold fresh. now intros -> ->. Qed.

Lemma fresh_clearTimeout (h : positive) (w : World) :
  fresh w -> fresh (clearTimeout h w).
Proof.
  unfold fresh. simpl. intros H.
  apply Forall_forall. intros t Ht. apply filter_In in Ht as [Ht _].
  revert t Ht. now apply Forall_forall.
Qed.

Lemma fresh_debouncedShowMovers (c : bool) (event : option nat) (w : World) :
  fresh w -> fresh (debouncedShowMovers c event w).
Proof.
  intros H. unfold debouncedShowMovers.
  assert (H1 : fresh (stopPropagation event w))
    by (destruct event; [ now apply (fresh_same w) | exact H ]).
  assert (H2 : fresh match timeoutRef (stopPropagation event w) with
                     | Some timeout =>
                         clearTimeout timeout (stopPropagation event w)
                     | None => stopPropagation event w
                     end)
    by (destruct (timeoutRef _); [ now apply fresh_clearTimeout | exact H1 ]).
  destruct (negb c); [ | exact H2 ].
  revert H2. now apply fresh_same.
Qed.

Lemma fresh_debouncedHideMovers (c : bool) (event : option nat) (w : World) :
  fresh w -> fresh (debouncedHideMovers c event w).
Proof.
  unfold fresh. rewrite debouncedHideMovers_timers. intros H.
  replace (nextHandle (debouncedHideMovers c event w))
    with (Pos.succ (nextHandle w)) by now destruct event.
  apply Forall_app. split.
  - eapply Forall_impl; [ | exact H ]. simpl. intros t Ht. lia.
  - constructor; [ simpl; lia | constructor ].
Qed.

Lemma fresh_fire (h : positive) (w w' : World) :
  fresh w -> fire h w = Ok w' -> fresh w'.
Proof.
  intros H. unfold fire.
  destruct (find _ (timers w)) as [t|]; [ | now intros [= <-] ].
  unfold hideCallback.
  destruct (shouldHideMovers (t_isFocused t) (clearTimeout h w)) as [b|e];
    simpl; [ | discriminate ].
  intros [= <-]. apply (fresh_clearTimeout h) in H.
  destruct b; [ revert H; now apply fresh_same | exact H ].
Qed.

Lemma fresh_call (f : Handler) (w w' : World) :
  fresh w -> call f w = Ok w' -> fresh w'.
Proof.
  intros H. destruct f as [n c | n c]; simpl;
    (destruct (isFocusedWithin w) as [v|e]; simpl; [ | discriminate ]);
    destruct (truthy v); simpl; intros [= <-]; try exact H.
  - apply fresh_debouncedShowMovers. revert H. now apply fresh_same.
  - apply fresh_debouncedHideMovers. revert H. now apply fresh_same.
Qed.

Lemma fresh_dispatch (type : EventType) (ls : list Listener) :
  forall w w', fresh w -> dispatch type ls w = Ok w' -> fresh w'.
Proof.
  induction ls as [|l rest IH]; simpl; intros w w' H.
  - now intros [= <-].
  - destruct (EventType_eqb (l_type l) type); [ | now apply IH ].
    destruct (call (l_callback l) w) as [w1|e] eqn:Hcall; simpl;
      [ | discriminate ].
    apply IH. now apply (fresh_call (l_callback l) w).
Qed.

Lemma fresh_cleanup (cl : Cleanup) (w : World) :
  fresh w -> fresh (cleanup cl w).
Proof.
  unfold cleanup. destruct (cl_node cl) as [[]|]; [ | easy ].
  intros H. apply (fresh_same w); [ reflexivity | reflexivity | exact H ].
Qed.

Lemma fresh_effect (w w' : World) :
  fresh w -> effect w = Ok w' -> fresh w'.
Proof.
  unfold effect. destruct (ref w) as [r|]; [ | discriminate ].
  intros H [= <-]. revert H. apply fresh_same.
  - destruct (current r) as [[]|]; [ | reflexivity ].
    destruct (negb (registerRef w)); [ | reflexivity ].
    unfold addEventListener. simpl.
    repeat match goal with
           | |- context [ if ?b then _ else _ ] => destruct b; simpl
           end; reflexivity.
  - destruct (current r) as [[]|]; [ | reflexivity ].
    destruct (negb (registerRef w)); [ | reflexivity ].
    unfold addEventListener. simpl.
    repeat match goal with
           | |- context [ if ?b then _ else _ ] => destruct b; simpl
           end; reflexivity.
Qed.

Lemma fresh_step (a : Action) (w w' : World) :
  fresh w -> step a w = Ok w' -> fresh w'.
Proof.
  intros H. unfold step.
  destruct (act a w) as [w1|e] eqn:Hact; simpl; [ | discriminate ].
  assert (H1 : fresh w1).
  { destruct a; simpl in Hact.
    - injection Hact as <-. now apply fresh_debouncedShowMovers.
    - injection Hact as <-. now apply fresh_debouncedHideMovers.
    - injection Hact as <-. revert H. now apply fresh_same.
    - eapply fresh_dispatch; [ | exact Hact ]. revert H. now apply fresh_same.
    - now apply (fresh_fire h w). }
  unfold rerender.
  destruct (Bool.eqb (showMovers w) (showMovers w1)
            && Bool.eqb (isFocused w) (isFocused w1)).
  - now intros [= <-].
  - apply fresh_effect.
    destruct (effectCleanup w1); [ now apply fresh_cleanup | exact H1 ].
Qed.

Lemma fresh_run (l : list Action) :
  forall w w', fresh w -> run l w = Ok w' -> fresh w'.
Proof.
  induction l as [|a rest IH]; simpl; intros w w' H.
  - now intros [= <-].
  - destruct (step a w) as [w1|e] eqn:Hstep; simpl; [ | discriminate ].
    apply IH. now apply (fresh_step a w).
Qed.

Lemma fresh_mounted (r : option RefObject) (timeout : Z) (w : World) :
  mount (initial r timeout) = Ok w -> fresh w.
Proof. apply fresh_effect. constructor. Qed.

(** The timer a hide request arms is the pending timer of its handle. *)
Lemma armed_timer_is_pending (c : bool) (event : option nat) (w : World) :
  fresh w ->
  pending (nextHandle w) (debouncedHideMovers c event w)
  = Some {| handle := nextHandle w; delay := debounceTimeout w;
            t_isFocused := c |}.
Proof.
  unfold fresh, pending. rewrite debouncedHideMovers_timers.
  induction (timers w) as [|t ts IH]; simpl; intros H.
  - now rewrite Pos.eqb_refl.
  - inversion H as [|? ? Ht Hts]; subst.
    destruct (Pos.eqb_spec (handle t) (nextHandle w)) as [E | _]; [ lia | ].
    now apply IH.
Qed.

(** X19: hide requests pile up: [n] of them in a row, on any world, all
    return and leave [n] more timers pending than before. *)
Lemma hide_requests_accumulate (e : nat) (n : nat) :
  forall w, exists w',
    run (repeat (MouseLeave e) n) w = Ok w'
    /\ length (timers w') = (n + length (timers w))%nat.
Proof.
  induction n as [|n IH]; simpl; intros w.
  - now exists w.
  - assert (Hstep : step (MouseLeave e) w = Ok (onMouseLeave e w)).
    { unfold step, rerender. simpl. now rewrite !Bool.eqb_reflx. }
    rewrite Hstep. simpl.
    destruct (IH (onMouseLeave e w)) as [w' [Hrun Hlen]].
    exists w'. split; [ exact Hrun | ].
    rewrite Hlen. unfold onMouseLeave.
    rewrite debouncedHideMovers_count. lia.
Qed.

(** *** Hide requests and their timers *)

Lemma getIsHovered_resolved (w : World) :
  ref w = resolved -> getIsHovered w = Ok (VBool (hover (element w))).
Proof. unfold getIsHovered. now intros ->. Qed.

Lemma hideCallback_resolved (f : bool) (w : World) :
  ref w = resolved ->
  hideCallback f w
  = Ok (if negb f && negb (hover (element w))
        then setShowMovers false w else w).
Proof.
  intros Href. unfold hideCallback, shouldHideMovers.
  now rewrite getIsHovered_resolved.
Qed.

(** What a hide timer does when it fires: a hide request arms one timer for
    the debounce interval, whose callback holds the [isFocused] of the render
    that made the request.  When that timer fires on a world [w'] whose ref is
    attached and whose movers are visible, the flag becomes hidden if and only
    if that captured [isFocused] is false and the element is not hovered in
    [w'].  The focus state of [w'] is not read. *)
Theorem hide_timer_hides_iff_captured_focus
    (w : World) (event : option nat) (w' : World) :
  let armed := debouncedHideMovers (isFocused w) event w in
  let t := {| handle := nextHandle w; delay := debounceTimeout w;
              t_isFocused := isFocused w |} in
  fresh w ->
  pending (handle t) w' = Some t ->
  ref w' = resolved ->
  showMovers w' = true ->
  timers armed = timers w ++ [t]
  /\ pending (handle t) armed = Some t
  /\ exists w'',
       fire (handle t) w' = Ok w''
       /\ (showMovers w'' = false
           <-> isFocused w = false /\ hover (element w') = false)
       /\ (showMovers w'' = true
           <-> isFocused w = true \/ hover (element w') = true).
Proof.
  intros armed t Hfresh Hpending Href Hvisible. split; [ | split ].
  - apply debouncedHideMovers_timers.
  - now apply armed_timer_is_pending.
  - unfold fire. unfold pending in Hpending. rewrite Hpending.
    rewrite hideCallback_resolved by exact Href.
    eexists. split; [ reflexivity | ].
    cbn [t t_isFocused handle]. simpl.
    destruct (isFocused w), (hover (element w')); simpl;
      rewrite ?Hvisible; intuition congruence.
Qed.

(** The same where the pointer has left a focused, visible toolbar: the
    timer of that request fires and leaves the movers visible. *)
Lemma hide_timer_hides_iff_captured_focus_witness :
  let w := setIsFocused true (setShowMovers true (initial resolved 500)) in
  let w' := onMouseLeave 5 w in
  let t := {| handle := 1; delay := 500; t_isFocused := true |} in
  fresh w
  /\ pending 1 w' = Some t
  /\ ref w' = resolved
  /\ showMovers w' = true
  /\ timers w' = [t]
  /\ pending 1 w' = Some t
  /\ exists w'',
       fire 1 w' = Ok w''
       /\ (showMovers w'' = false
           <-> isFocused w = false /\ hover (element w') = false)
       /\ (showMovers w'' = true
           <-> isFocused w = true \/ hover (element w') = true).
Proof.
  split; [ constructor | ].
  split; [ reflexivity | ].
  split; [ reflexivity | ].
  split; [ reflexivity | ].
  apply (hide_timer_hides_iff_captured_focus
           (setIsFocused true (setShowMovers true (initial resolved 500)))
           (Some 5%nat)
           (onMouseLeave 5
              (setIsFocused true (setShowMovers true (initial resolved 500))))).
  - constructor.
  - reflexivity.
  - reflexivity.
  - reflexivity.
Defined.

(** C4, evaluated on the code: focus enters the toolbar, the pointer moves
    over it and leaves it (timer 1, armed while [isFocused] is true), then
    focus leaves it; the blur's hide request arms timer 2 and, cancelling
    nothing, leaves timer 1 pending.  When timer 1 fires the movers are
    visible and the element is neither hovered nor focused within, yet the
    movers stay visible: the callback tests the [isFocused] it was armed
    with. *)
Lemma hide_timer_ignores_focus_at_fire_time :
  exists w,
    (w0 <- mount (initial resolved 500) ;;
     run [Focus true; Hover true; MouseMove 6; Hover false; MouseLeave 7;
          Focus false] w0) = Ok w
    /\ showMovers w = true
    /\ pending 1 w = Some {| handle := 1; delay := 500; t_isFocused := true |}
    /\ hover (element w) = false
    /\ containsActiveElement (element w) = false
    /\ isFocused w = false
    /\ ~ (forall w', fire 1 w = Ok w' -> showMovers w' = false).
Proof.
  eexists. split; [ vm_compute; reflexivity | ].
  repeat split.
  intros H. specialize (H _ eq_refl). discriminate H.
Qed.

End DebouncerFacts.

(** * Properties of the frame loop *)

Section FrameLoopFacts.

Import FrameLoop.

Lemma left_of_box (r : Rect) : 0 <= width r -> left r = x r.
Proof. unfold left. lia. Qed.

(** A computed translation is never zero, so it is always assigned. *)
Lemma nextTranslateX_nonzero (container node : Rect) (t : Z) :
  nextTranslateX container node = Some t -> t <> 0.
Proof.
  unfold nextTranslateX, isOverflowLeft, isOverflowRight.
  destruct (totalOffsetLeft node <? x container) eqn:Hl.
  - apply Z.ltb_lt in Hl. intros [= <-]. lia.
  - destruct (containerRight container <? nodeRight node) eqn:Hr;
      [ | discriminate ].
    apply Z.ltb_lt in Hr. intros [= <-]. unfold buffer. lia.
Qed.

(** [updatePosition] on a measured anchor that is not left of the
    viewport. *)
Lemma updatePosition_measured (w : World) (target : Parent) (container : Rect) :
  current w = Some {| parentElement := Some target |} ->
  containerNode w = Some container ->
  0 <= left (rect target) ->
  updatePosition w
  = Ok (set_opacity 1
          (assignTransform (nextTranslateX container (rect target)) w)).
Proof.
  intros Hc Hk Hl. unfold updatePosition. rewrite Hc, Hk. simpl.
  destruct (left (rect target) <? 0) eqn:E; [ | reflexivity ].
  apply Z.ltb_lt in E. lia.
Qed.

(** C6, evaluated on the code: the anchor's own box is 770..870 and the
    container is 0..800, nothing is transformed yet.  The first measurement
    assigns -78 and the anchor is drawn at 692..792, inside.  The editor then
    becomes ten pixels narrower, 0..790, still wider than the anchor and its
    two offsets.  The next measurement sees the drawn box 692..792, computes
    790 - 792 - 8 = -10 from it and assigns that in place of the -78 in
    effect: the anchor is drawn at 760..860, its right edge beyond
    790 - 8 = 782. *)
Theorem stale_transform_places_anchor_outside :
  let container := {| x := 0; width := 790 |} in
  let w0 := measured {| x := 0; width := 800 |} {| x := 770; width := 100 |}
              {| transform := None; opacity := Some 0 |} in
  exists w1 w2,
    updatePosition w0 = Ok w1
    /\ targetStyle w1 = Some {| transform := Some (-78); opacity := Some 1 |}
    /\ targetRect w1 = Some {| x := 692; width := 100 |}
    /\ 100 + offsetLeft + buffer <= width container
    /\ updatePosition (set_containerRect container w1) = Ok w2
    /\ targetStyle w2 = Some {| transform := Some (-10); opacity := Some 1 |}
    /\ targetRect w2 = Some {| x := 760; width := 100 |}
    /\ containerRight container - buffer < nodeRight {| x := 760; width := 100 |}.
Proof.
  eexists. eexists.
  split; [ reflexivity | ].
  split; [ reflexivity | ].
  split; [ reflexivity | ].
  split; [ vm_compute; discriminate | ].
  split; [ reflexivity | ].
  split; [ reflexivity | ].
  split; reflexivity.
Qed.

(** The frame after that finds the right overflow again and puts -78 back:
    the two transforms alternate frame by frame. *)
Lemma stale_transform_alternates :
  let container := {| x := 0; width := 790 |} in
  let w2 := measured container {| x := 760; width := 100 |}
              {| transform := Some (-10); opacity := Some 1 |} in
  exists w3 w4,
    updatePosition w2 = Ok w3
    /\ targetStyle w3 = Some {| transform := Some (-78); opacity := Some 1 |}
    /\ targetRect w3 = Some {| x := 692; width := 100 |}
    /\ updatePosition w3 = Ok w4
    /\ targetStyle w4 = Some {| transform := Some (-10); opacity := Some 1 |}
    /\ targetRect w4 = Some {| x := 760; width := 100 |}.
Proof. eexists. eexists. repeat split. Qed.

(** C7: container rect x = 0, width = 800 and anchor rect x = 770,
    width = 100: no left overflow, right overflow, and the transform assigned
    is 800 - 870 - 8 = -78 pixels. *)
Theorem right_overflow_scenario (s : Style) :
  let container := {| x := 0; width := 800 |} in
  let node := {| x := 770; width := 100 |} in
  isOverflowLeft container node = false
  /\ isOverflowRight container node = true
  /\ nextTranslateX container node = Some (800 - 870 - 8)
  /\ exists w',
       updatePosition (measured container node s) = Ok w'
       /\ targetStyle w' = Some {| transform := Some (-78);
                                   opacity := Some 1 |}.
Proof.
  repeat split. eexists. split; reflexivity.
Qed.

(** C8: anchor rect x = 20 and container left edge 0, whatever the widths:
    [totalOffsetLeft] is 20 - 56 = -36, which is a left overflow, and the
    transform assigned is 0 - (-36) = 36 pixels. *)
Theorem left_overflow_scenario (containerWidth nodeWidth : Z) (s : Style) :
  0 <= nodeWidth ->
  let container := {| x := 0; width := containerWidth |} in
  let node := {| x := 20; width := nodeWidth |} in
  offsetLeft = 48 + 8
  /\ totalOffsetLeft node = -36
  /\ isOverflowLeft container node = true
  /\ nextTranslateX container node = Some (0 - (-36))
  /\ exists w',
       updatePosition (measured container node s) = Ok w'
       /\ targetStyle w' = Some {| transform := Some 36;
                                   opacity := Some 1 |}.
Proof.
  intros Hw container node. repeat split.
  eexists. split.
  - apply (updatePosition_measured _ {| rect := node; style := s |} container);
      try reflexivity.
    simpl. rewrite left_of_box; simpl; lia.
  - reflexivity.
Qed.

Lemma left_overflow_scenario_witness :
  0 <= 100
  /\ let container := {| x := 0; width := 800 |} in
     let node := {| x := 20; width := 100 |} in
     offsetLeft = 48 + 8
     /\ totalOffsetLeft node = -36
     /\ isOverflowLeft container node = true
     /\ nextTranslateX container node = Some (0 - (-36))
     /\ exists w',
          updatePosition
            (measured container node {| transform := None; opacity := None |})
          = Ok w'
          /\ targetStyle w' = Some {| transform := Some 36;
                                      opacity := Some 1 |}.
Proof.
  split.
  - lia.
  - apply (left_overflow_scenario 800 100
             {| transform := None; opacity := None |}). lia.
Defined.

End FrameLoopFacts.

(** * Not-ready states and teardown of the two positioning hooks *)

Section PositioningFacts.

(** C9, as the code has it: in the frame loop a missing anchor node and a
    negative measured left edge make [updatePosition] return early, with no
    exception and the world (so every style) untouched, and [rafCallback]
    then requests the next frame, which tries again; in the resize variant a
    missing anchor node makes the frame callback return early in the same
    way. *)
Theorem not_ready_returns_early (w : FrameLoop.World) (v : Resize.World) :
  FrameLoop.notReady w ->
  Resize.containerNode v = None ->
  FrameLoop.updatePosition w = Ok w
  /\ FrameLoop.rafCallback w
     = Ok (FrameLoop.set_rafLoopRef (Some (FrameLoop.nextHandle w))
             (FrameLoop.set_frames
                (FrameLoop.frames w ++ [FrameLoop.nextHandle w])
                (Pos.succ (FrameLoop.nextHandle w)) w))
  /\ Resize.repositionFrame v = Ok v.
Proof.
  intros Hw Hv.
  assert (Hup : FrameLoop.updatePosition w = Ok w).
  { unfold FrameLoop.updatePosition.
    destruct Hw as [Hnone | [target [container [Hc [Hk Hneg]]]]].
    - now rewrite Hnone.
    - rewrite Hc, Hk. simpl. apply Z.ltb_lt in Hneg. now rewrite Hneg. }
  repeat split.
  - exact Hup.
  - unfold FrameLoop.rafCallback. now rewrite Hup.
  - unfold Resize.repositionFrame. now rewrite Hv.
Qed.

Lemma not_ready_returns_early_witness :
  let w := FrameLoop.measured {| FrameLoop.x := 0; FrameLoop.width := 800 |}
             {| FrameLoop.x := -10; FrameLoop.width := 100 |}
             {| FrameLoop.transform := None; FrameLoop.opacity := Some 0 |} in
  let v := {| Resize.containerNode := None; Resize.editorNode := Some 0;
              Resize.transformTimeout := None; Resize.timers := [];
              Resize.frames := []; Resize.resizeListener := true;
              Resize.nextHandle := 1 |} in
  FrameLoop.notReady w
  /\ Resize.containerNode v = None
  /\ FrameLoop.updatePosition w = Ok w
  /\ FrameLoop.rafCallback w
     = Ok (FrameLoop.set_rafLoopRef (Some (FrameLoop.nextHandle w))
             (FrameLoop.set_frames
                (FrameLoop.frames w ++ [FrameLoop.nextHandle w])
                (Pos.succ (FrameLoop.nextHandle w)) w))
  /\ Resize.repositionFrame v = Ok v.
Proof.
  assert (H : FrameLoop.notReady
                (FrameLoop.measured
                   {| FrameLoop.x := 0; FrameLoop.width := 800 |}
                   {| FrameLoop.x := -10; FrameLoop.width := 100 |}
                   {| FrameLoop.transform := None;
                      FrameLoop.opacity := Some 0 |})).
  { right. do 2 eexists. repeat split. }
  split; [ exact H | ].
  split; [ reflexivity | ].
  exact (not_ready_returns_early _
           {| Resize.containerNode := None; Resize.editorNode := Some 0;
              Resize.transformTimeout := None; Resize.timers := [];
              Resize.frames := []; Resize.resizeListener := true;
              Resize.nextHandle := 1 |} H eq_refl).
Defined.

(** C9 as stated fails in four places.  With the anchor present and no
    editor container in the document, [updatePosition] and the frame callback
    of the resize variant both raise a [TypeError]; the resize variant has no
    guard on a negative measured position: it assigns a transform; and its
    settle callback raises a [TypeError] when the anchor node is missing. *)
Lemma not_ready_not_always_early_return :
  FrameLoop.updatePosition
    {| FrameLoop.current :=
         Some {| FrameLoop.parentElement :=
                   Some {| FrameLoop.rect :=
                             {| FrameLoop.x := 100; FrameLoop.width := 100 |};
                           FrameLoop.style :=
                             {| FrameLoop.transform := None;
                                FrameLoop.opacity := Some 0 |} |} |};
       FrameLoop.containerNode := None;
       FrameLoop.rafLoopRef := Some 1%positive;
       FrameLoop.frames := []; FrameLoop.nextHandle := 2 |}
  = Throw TypeError
  /\ Resize.repositionFrame
       {| Resize.containerNode :=
            Some {| Resize.nodeX := 100; Resize.dataTransformOffset := None;
                    Resize.parentElement :=
                      Some {| Resize.transform := None;
                              Resize.opacity := Some 1 |} |};
          Resize.editorNode := None;
          Resize.transformTimeout := None; Resize.timers := [];
          Resize.frames := []; Resize.resizeListener := true;
          Resize.nextHandle := 3 |}
     = Throw TypeError
  /\ Resize.repositionFrame
       {| Resize.containerNode :=
            Some {| Resize.nodeX := -5; Resize.dataTransformOffset := None;
                    Resize.parentElement :=
                      Some {| Resize.transform := None;
                              Resize.opacity := Some 1 |} |};
          Resize.editorNode := Some 0;
          Resize.transformTimeout := None; Resize.timers := [];
          Resize.frames := []; Resize.resizeListener := true;
          Resize.nextHandle := 3 |}
     = Ok {| Resize.containerNode :=
               Some {| Resize.nodeX := -5;
                       Resize.dataTransformOffset := Some 61;
                       Resize.parentElement :=
                         Some {| Resize.transform := Some 61;
                                 Resize.opacity := Some 1 |} |};
             Resize.editorNode := Some 0;
             Resize.transformTimeout := None; Resize.timers := [];
             Resize.frames := []; Resize.resizeListener := true;
             Resize.nextHandle := 3 |}
  /\ Resize.settle
       {| Resize.containerNode := None; Resize.editorNode := Some 0;
          Resize.transformTimeout := Some 1%positive; Resize.timers := [];
          Resize.frames := []; Resize.resizeListener := true;
          Resize.nextHandle := 2 |}
     = Throw TypeError.
Proof. repeat split. Qed.

(** An exception in [updatePosition] ends the frame loop: [rafCallback] does
    not reach its [requestAnimationFrame]. *)
Lemma rafCallback_throw_ends_loop (w : FrameLoop.World) (e : exn) :
  FrameLoop.updatePosition w = Throw e -> FrameLoop.rafCallback w = Throw e.
Proof. unfold FrameLoop.rafCallback. now intros ->. Qed.

(** The settle callback of the resize variant has no guard of its own. *)
Lemma settle_without_anchor_throws (v : Resize.World) :
  Resize.containerNode v = None -> Resize.settle v = Throw TypeError.
Proof. unfold Resize.settle. now intros ->. Qed.

(** *** Teardown *)

Lemma filter_other_than (h : positive) :
  filter (fun k => negb (Pos.eqb k h)) [h] = [].
Proof. simpl. now rewrite Pos.eqb_refl. Qed.

(** Mounting starts the chain, every frame that returns keeps it, and
    unmounting a chained loop leaves no frame pending. *)
Lemma effect_chained (w : FrameLoop.World) :
  FrameLoop.frames w = [] -> FrameLoop.chained (FrameLoop.effect w).
Proof.
  intros H. exists (FrameLoop.nextHandle w). simpl. now rewrite H.
Qed.

Lemma set_opacity_frames (v : Z) (w : FrameLoop.World) :
  FrameLoop.frames (FrameLoop.set_opacity v w) = FrameLoop.frames w
  /\ FrameLoop.nextHandle (FrameLoop.set_opacity v w)
     = FrameLoop.nextHandle w.
Proof.
  unfold FrameLoop.set_opacity.
  destruct (FrameLoop.current w) as [[[p|]]|]; now split.
Qed.

Lemma assignTransform_frames (next : option Z) (w : FrameLoop.World) :
  FrameLoop.frames (FrameLoop.assignTransform next w) = FrameLoop.frames w
  /\ FrameLoop.nextHandle (FrameLoop.assignTransform next w)
     = FrameLoop.nextHandle w.
Proof.
  unfold FrameLoop.assignTransform, FrameLoop.set_transform.
  destruct next as [t|]; [ | now split ].
  destruct (t =? 0); [ now split | ].
  destruct (FrameLoop.current w) as [[[p|]]|]; now split.
Qed.

Lemma updatePosition_frames (w w' : FrameLoop.World) :
  FrameLoop.updatePosition w = Ok w' ->
  FrameLoop.frames w' = FrameLoop.frames w
  /\ FrameLoop.nextHandle w' = FrameLoop.nextHandle w.
Proof.
  unfold FrameLoop.updatePosition.
  destruct (FrameLoop.current w) as [[[target|]]|] eqn:Hc;
    destruct (FrameLoop.containerNode w) as [container|]; simpl;
    try discriminate; try (intros [= <-]; now split).
  destruct (FrameLoop.left (FrameLoop.rect target) <? 0);
    intros [= <-]; [ now split | ].
  destruct (set_opacity_frames 1
              (FrameLoop.assignTransform
                 (FrameLoop.nextTranslateX container (FrameLoop.rect target))
                 w)) as [Hf Hn].
  destruct (assignTransform_frames
              (FrameLoop.nextTranslateX container (FrameLoop.rect target)) w)
    as [Hf' Hn'].
  split; congruence.
Qed.

Lemma frame_chained (h : positive) (w w' : FrameLoop.World) :
  FrameLoop.chained w ->
  FrameLoop.frame h w = Ok w' ->
  FrameLoop.chained w'.
Proof.
  intros [k [Hk Hf]]. unfold FrameLoop.frame. rewrite Hf. simpl.
  destruct (Pos.eqb_spec h k) as [-> | Hne]; simpl.
  - unfold FrameLoop.rafCallback.
    destruct (FrameLoop.updatePosition
                (FrameLoop.cancelAnimationFrame k w)) as [w1|e] eqn:Hup;
      simpl; [ | discriminate ].
    apply updatePosition_frames in Hup as [Hfr Hnh].
    intros [= <-]. exists (FrameLoop.nextHandle w1). simpl.
    split; [ reflexivity | ].
    rewrite Hfr. simpl. rewrite Hf. now rewrite filter_other_than.
  - intros [= <-]. now exists k.
Qed.

Lemma frame_loop_unmount_no_frames (w : FrameLoop.World) :
  FrameLoop.chained w -> FrameLoop.frames (FrameLoop.unmount w) = [].
Proof.
  intros [h [Hr Hf]]. unfold FrameLoop.unmount, FrameLoop.cancelAnimationLoop.
  rewrite Hr. simpl. rewrite Hf. apply filter_other_than.
Qed.

(** The layout effect of the resize variant arms one settle timer and adds
    one listener; the function it returns removes both. *)
Lemma resize_cleanup_no_timer_no_listener (v : Resize.World) :
  Resize.timers v = [] ->
  Resize.timers (Resize.effect v) = [Resize.nextHandle v]
  /\ Resize.resizeListener (Resize.effect v) = true
  /\ Resize.timers (Resize.cleanup (Resize.effect v)) = []
  /\ Resize.resizeListener (Resize.cleanup (Resize.effect v)) = false.
Proof.
  intros H. unfold Resize.effect, Resize.cleanup, Resize.clearTransformTimeout.
  destruct (Resize.transformTimeout v); simpl; rewrite H; simpl;
    rewrite Pos.eqb_refl; simpl; repeat split.
Qed.

(** A frame that [reposition] requested is not cancelled by the cleanup: after
    the settle timer has fired, teardown leaves that frame pending. *)
Lemma resize_cleanup_keeps_requested_frame :
  let v := {| Resize.containerNode :=
                Some {| Resize.nodeX := 30;
                        Resize.dataTransformOffset := None;
                        Resize.parentElement :=
                          Some {| Resize.transform := None;
                                  Resize.opacity := None |} |};
              Resize.editorNode := Some 0;
              Resize.transformTimeout := None; Resize.timers := [];
              Resize.frames := []; Resize.resizeListener := false;
              Resize.nextHandle := 1 |} in
  exists v',
    Resize.fire 1 (Resize.effect v) = Ok v'
    /\ Resize.frames (Resize.cleanup v') = [2%positive]
    /\ Resize.timers (Resize.cleanup v') = []
    /\ Resize.resizeListener (Resize.cleanup v') = false.
Proof. eexists. split; [ vm_compute; reflexivity | repeat split ]. Qed.

(** *** The translation of the resize variant *)

(** C10: whenever the frame callback of [reposition] finds its three nodes it
    returns, and with [diff = 48 - (nodeX - editorX) + currentOffset] the
    translation [t] it assigns to the parent's transform is [diff + 8] when
    [diff] is strictly positive and [0] otherwise, so it is never negative,
    and the same [t] is stored in the data-transform-offset attribute. *)
Theorem reposition_translation (v : Resize.World) (node : Resize.Element)
    (editorX : Z) (s : Resize.Style) :
  Resize.containerNode v = Some node ->
  Resize.editorNode v = Some editorX ->
  Resize.parentElement node = Some s ->
  let diff := 48 - (Resize.nodeX node - editorX) + Resize.currentOffset node in
  exists v' t,
    Resize.repositionFrame v = Ok v'
    /\ Resize.containerNode v'
       = Some {| Resize.nodeX := Resize.nodeX node;
                 Resize.dataTransformOffset := Some t;
                 Resize.parentElement :=
                   Some {| Resize.transform := Some t;
                           Resize.opacity := Resize.opacity s |} |}
    /\ 0 <= t
    /\ (0 < diff -> t = diff + 8)
    /\ (diff <= 0 -> t = 0).
Proof.
  intros Hc He Hp diff.
  exists (Resize.set_containerNode
            (Some {| Resize.nodeX := Resize.nodeX node;
                     Resize.dataTransformOffset :=
                       Some (Resize.nextTranslateX editorX node);
                     Resize.parentElement :=
                       Some {| Resize.transform :=
                                 Some (Resize.nextTranslateX editorX node);
                               Resize.opacity := Resize.opacity s |} |}) v),
         (Resize.nextTranslateX editorX node).
  split.
  - unfold Resize.repositionFrame. now rewrite Hc, He, Hp.
  - split; [ reflexivity | ].
    unfold Resize.nextTranslateX, Resize.diff, Resize.innerOffset,
      Resize.outerOffset, Resize.buffer.
    fold diff.
    destruct (Z.ltb_spec 0 diff); repeat split; lia.
Qed.

Lemma reposition_translation_witness :
  let node := {| Resize.nodeX := 30; Resize.dataTransformOffset := Some 10;
                 Resize.parentElement :=
                   Some {| Resize.transform := Some 10;
                           Resize.opacity := Some 1 |} |} in
  let v := {| Resize.containerNode := Some node; Resize.editorNode := Some 0;
              Resize.transformTimeout := None; Resize.timers := [];
              Resize.frames := []; Resize.resizeListener := true;
              Resize.nextHandle := 3 |} in
  Resize.containerNode v = Some node
  /\ Resize.editorNode v = Some 0
  /\ exists v' t,
       Resize.repositionFrame v = Ok v'
       /\ Resize.containerNode v'
          = Some {| Resize.nodeX := 30;
                    Resize.dataTransformOffset := Some t;
                    Resize.parentElement :=
                      Some {| Resize.transform := Some t;
                              Resize.opacity := Some 1 |} |}
       /\ 0 <= t
       /\ (0 < 48 - (30 - 0) + 10 -> t = 48 - (30 - 0) + 10 + 8)
       /\ (48 - (30 - 0) + 10 <= 0 -> t = 0).
Proof.
  split; [ reflexivity | ].
  split; [ reflexivity | ].
  exact (reposition_translation
           {| Resize.containerNode :=
                Some {| Resize.nodeX := 30;
                        Resize.dataTransformOffset := Some 10;
                        Resize.parentElement :=
                          Some {| Resize.transform := Some 10;
                                  Resize.opacity := Some 1 |} |};
              Resize.editorNode := Some 0;
              Resize.transformTimeout := None; Resize.timers := [];
              Resize.frames := []; Resize.resizeListener := true;
              Resize.nextHandle := 3 |}
           _ 0 _ eq_refl eq_refl eq_refl).
Defined.

End PositioningFacts.

(** * Runs of a mounted toolbar *)

Section DebouncerRuns.

Import Debouncer.

Lemma eta_world (w : World) :
  set_element {| hover := hover (element w);
                 containsActiveElement := containsActiveElement (element w);
                 listeners := listeners (element w) |} w = w.
Proof. destruct w as [? ? [? ? ?] ? ? ? ? ? ? ? ? ?]. reflexivity. Qed.

Lemma firstListeners_capture : forallb l_capture firstListeners = true.
Proof. reflexivity. Qed.

Lemma removeEventListener_capturing_id (type : EventType) (f : Handler)
    (w : World) :
  forallb l_capture (listeners (element w)) = true ->
  removeEventListener type f w = w.
Proof.
  intros H.
  pose proof (removeEventListener_keeps_capturing type f w H) as Hl.
  unfold removeEventListener in *. simpl in Hl. rewrite Hl.
  apply eta_world.
Qed.

Lemma cleanup_wired (cl : Cleanup) (w : World) :
  wired w -> cleanup cl w = w.
Proof.
  intros [_ [_ Hl]]. unfold cleanup.
  destruct (cl_node cl) as [[]|]; [ | reflexivity ].
  assert (Hc : forallb l_capture (listeners (element w)) = true)
    by (rewrite Hl; reflexivity).
  rewrite (removeEventListener_capturing_id focus _ w Hc).
  now apply removeEventListener_capturing_id.
Qed.

Lemma effect_wired (w : World) :
  wired w ->
  effect w
  = Ok (set_effect
          (Some {| cl_node := Some region; cl_run := effectRuns w;
                   cl_closure := {| c_showMovers := showMovers w;
                                    c_isFocused := isFocused w |} |})
          (S (effectRuns w)) w).
Proof.
  intros [Href [Hreg _]]. unfold effect. rewrite Href. simpl.
  now rewrite Hreg.
Qed.

Lemma set_effect_same (w : World) :
  set_effect (effectCleanup w) (effectRuns w) w = w.
Proof. now destruct w. Qed.

(** On a wired world a render only replaces the stored cleanup. *)
Lemma rerender_wired (before after : World) :
  wired after ->
  exists c n, rerender before after = Ok (set_effect c n after).
Proof.
  intros H. unfold rerender.
  destruct (Bool.eqb (showMovers before) (showMovers after)
            && Bool.eqb (isFocused before) (isFocused after)).
  - exists (effectCleanup after), (effectRuns after).
    now rewrite set_effect_same.
  - replace (match effectCleanup after with
             | Some cl => cleanup cl after
             | None => after
             end) with after
      by (destruct (effectCleanup after);
          [ now rewrite cleanup_wired | reflexivity ]).
    rewrite (effect_wired after H). now eexists _, _.
Qed.

Lemma wired_same (w w' : World) :
  ref w' = ref w -> registerRef w' = registerRef w ->
  listeners (element w') = listeners (element w) ->
  wired w -> wired w'.
Proof. unfold wired. now intros -> -> ->. Qed.

Lemma wired_debouncedShowMovers (c : bool) (event : option nat) (w : World) :
  wired w -> wired (debouncedShowMovers c event w).
Proof.
  apply wired_same; unfold debouncedShowMovers;
    destruct event; simpl; destruct (timeoutRef w); destruct c; reflexivity.
Qed.

Lemma wired_debouncedHideMovers (c : bool) (event : option nat) (w : World) :
  wired w -> wired (debouncedHideMovers c event w).
Proof. apply wired_same; destruct event; reflexivity. Qed.

(** What the two listeners of the first render do when focus moves. *)
Lemma act_focus_in (w : World) :
  wired w ->
  act (Focus true) w
  = Ok (debouncedShowMovers false None
          (setIsFocused true (set_containsActiveElement true w))).
Proof.
  intros [Href [_ Hl]]. simpl. rewrite Hl. simpl.
  unfold isFocusedWithin. simpl. rewrite Href. reflexivity.
Qed.

Lemma act_focus_out (w : World) :
  wired w ->
  act (Focus false) w
  = Ok (debouncedHideMovers false None
          (setIsFocused false (set_containsActiveElement false w))).
Proof.
  intros [Href [_ Hl]]. simpl. rewrite Hl. simpl.
  unfold isFocusedWithin. simpl. rewrite Href. reflexivity.
Qed.

Lemma act_wired (a : Action) (w : World) :
  wired w -> exists w1, act a w = Ok w1 /\ wired w1.
Proof.
  intros H. destruct a as [e | e | b | [|] | h].
  - eexists. split; [ reflexivity | ].
    now apply wired_debouncedShowMovers.
  - eexists. split; [ reflexivity | ].
    now apply wired_debouncedHideMovers.
  - eexists. split; [ reflexivity | ].
    revert H. now apply wired_same.
  - rewrite (act_focus_in w H). eexists. split; [ reflexivity | ].
    apply wired_debouncedShowMovers. revert H. now apply wired_same.
  - rewrite (act_focus_out w H). eexists. split; [ reflexivity | ].
    apply wired_debouncedHideMovers. revert H. now apply wired_same.
  - simpl. unfold fire.
    destruct (find _ (timers w)) as [t|]; [ | now exists w ].
    rewrite hideCallback_resolved by (simpl; apply H).
    eexists. split; [ reflexivity | ].
    destruct (negb (t_isFocused t) && negb (hover (element (clearTimeout h w))));
      revert H; now apply wired_same.
Qed.

Lemma step_wired (a : Action) (w : World) :
  wired w -> exists w1, step a w = Ok w1 /\ wired w1.
Proof.
  intros H. destruct (act_wired a w H) as [w1 [Hact H1]].
  destruct (rerender_wired w w1 H1) as [c [n Hre]].
  exists (set_effect c n w1). split.
  - unfold step. rewrite Hact. exact Hre.
  - revert H1. now apply wired_same.
Qed.

Lemma run_wired (l : list Action) :
  forall w, wired w -> exists w', run l w = Ok w' /\ wired w'.
Proof.
  induction l as [|a rest IH]; intros w H.
  - now exists w.
  - destruct (step_wired a w H) as [w1 [Hstep H1]].
    destruct (IH w1 H1) as [w' [Hrun H']].
    exists w'. split; [ | exact H' ].
    simpl. now rewrite Hstep.
Qed.

Lemma mount_wired (timeout : Z) :
  exists w0, mount (initial resolved timeout) = Ok w0 /\ wired w0.
Proof. eexists. split; [ reflexivity | ]. repeat split. Qed.

(** X1: a toolbar mounted on an attached element never throws, whatever the
    pointer, the focus and the timers do afterwards, and the listeners on its
    element stay the focus and the blur handler of the first render: the
    effect adds them once and no later run of the effect or of its cleanup
    replaces or removes them. *)
Theorem mounted_run_stays_wired (timeout : Z) (l : list Action) :
  exists w0 w,
    mount (initial resolved timeout) = Ok w0
    /\ run l w0 = Ok w
    /\ ref w = resolved
    /\ listeners (element w) = firstListeners.
Proof.
  destruct (mount_wired timeout) as [w0 [Hm H0]].
  destruct (run_wired l w0 H0) as [w [Hrun [Href [_ Hl]]]].
  now exists w0, w.
Qed.

(** *** What can hide the movers *)

Lemma showMovers_debouncedShowMovers (c : bool) (event : option nat)
    (w : World) :
  showMovers (debouncedShowMovers c event w)
  = if c then showMovers w else true.
Proof.
  unfold debouncedShowMovers.
  destruct event; simpl; destruct (timeoutRef w); destruct c; reflexivity.
Qed.

Lemma showMovers_debouncedHideMovers (c : bool) (event : option nat)
    (w : World) :
  showMovers (debouncedHideMovers c event w) = showMovers w.
Proof. now destruct event. Qed.

Lemma call_keeps_visible (f : Handler) (w w' : World) :
  call f w = Ok w' -> showMovers w = true -> showMovers w' = true.
Proof.
  destruct f as [n c | n c]; simpl;
    (destruct (isFocusedWithin w) as [v|e]; simpl; [ | discriminate ]);
    destruct (truthy v); simpl; intros [= <-] H; try exact H.
  rewrite showMovers_debouncedShowMovers. simpl.
  now destruct (c_showMovers c).
Qed.

Lemma dispatch_keeps_visible (type : EventType) (ls : list Listener) :
  forall w w',
    dispatch type ls w = Ok w' -> showMovers w = true -> showMovers w' = true.
Proof.
  induction ls as [|l rest IH]; simpl; intros w w'.
  - now intros [= <-].
  - destruct (EventType_eqb (l_type l) type); [ | now apply IH ].
    destruct (call (l_callback l) w) as [w1|e] eqn:Hcall; simpl;
      [ | discriminate ].
    intros Hd Hs. apply (IH w1); [ exact Hd | ].
    now apply (call_keeps_visible (l_callback l) w).
Qed.

Lemma showMovers_cleanup (cl : Cleanup) (w : World) :
  showMovers (cleanup cl w) = showMovers w.
Proof. unfold cleanup. now destruct (cl_node cl) as [[]|]. Qed.

Lemma showMovers_effect (w w' : World) :
  effect w = Ok w' -> showMovers w' = showMovers w.
Proof.
  unfold effect. destruct (ref w) as [r|]; [ | discriminate ].
  intros [= <-]. simpl.
  destruct (current r) as [[]|]; [ | reflexivity ].
  destruct (negb (registerRef w)); [ | reflexivity ].
  unfold addEventListener. simpl.
  repeat match goal with
         | |- context [ if ?b then _ else _ ] => destruct b; simpl
         end; reflexivity.
Qed.

Lemma showMovers_rerender (before after w' : World) :
  rerender before after = Ok w' -> showMovers w' = showMovers after.
Proof.
  unfold rerender.
  destruct (Bool.eqb (showMovers before) (showMovers after)
            && Bool.eqb (isFocused before) (isFocused after)).
  - now intros [= <-].
  - intros H. apply showMovers_effect in H. rewrite H.
    destruct (effectCleanup after); [ apply showMovers_cleanup | reflexivity ].
Qed.

(** X2: only a timer hides the movers.  Whatever listeners are on the
    element and whatever renders the callbacks come from, a pointer move, a
    pointer leave, a hover change or a focus change that returns leaves
    visible movers visible. *)
Theorem only_timers_hide (a : Action) (w w' : World) :
  (forall h, a <> Fire h) ->
  step a w = Ok w' ->
  showMovers w = true ->
  showMovers w' = true.
Proof.
  intros Hnot Hstep Hs. unfold step in Hstep.
  destruct (act a w) as [w1|e] eqn:Hact; simpl in Hstep; [ | discriminate ].
  rewrite (showMovers_rerender w w1 w' Hstep).
  destruct a as [e | e | b | b | h]; simpl in Hact.
  - injection Hact as <-. unfold onMouseMove.
    rewrite showMovers_debouncedShowMovers. now rewrite Hs.
  - injection Hact as <-. unfold onMouseLeave.
    now rewrite showMovers_debouncedHideMovers.
  - now injection Hact as <-.
  - now apply (dispatch_keeps_visible _ _ _ _ Hact).
  - now contradiction (Hnot h).
Qed.

Lemma only_timers_hide_witness :
  let w := setShowMovers true (initial resolved 500) in
  (forall h, MouseLeave 3 <> Fire h)
  /\ step (MouseLeave 3) w = Ok (onMouseLeave 3 w)
  /\ showMovers w = true
  /\ showMovers (onMouseLeave 3 w) = true.
Proof.
  assert (Hnot : forall h, MouseLeave 3 <> Fire h) by (intros h; discriminate).
  split; [ exact Hnot | ].
  split; [ reflexivity | ].
  split; [ reflexivity | ].
  exact (only_timers_hide (MouseLeave 3)
           (setShowMovers true (initial resolved 500)) _
           Hnot eq_refl eq_refl).
Defined.

(** *** Focus entering and leaving *)

Lemma focus_on_wired (w : World) :
  wired w ->
  (exists w1,
     act (Focus true) w = Ok w1
     /\ isFocused w1 = true
     /\ showMovers w1 = true
     /\ timers w1
        = match timeoutRef w with
          | Some h => filter (fun t => negb (Pos.eqb (handle t) h)) (timers w)
          | None => timers w
          end)
  /\ (exists w2,
        act (Focus false) w = Ok w2
        /\ isFocused w2 = false
        /\ showMovers w2 = showMovers w
        /\ timers w2
           = timers w ++ [ {| handle := nextHandle w;
                              delay := debounceTimeout w;
                              t_isFocused := false |} ]
        /\ timeoutRef w2 = Some (nextHandle w)).
Proof.
  intros H. split.
  - rewrite (act_focus_in w H). eexists. split; [ reflexivity | ].
    unfold debouncedShowMovers. simpl.
    destruct (timeoutRef w); repeat split.
  - rewrite (act_focus_out w H). eexists. split; [ reflexivity | ].
    repeat split.
Qed.

(** X3: on a toolbar whose element is attached when it mounts, in the state
    [w] any run leads to, focus moving into the element sets [isFocused],
    shows the movers and cancels the timer [timeoutRef] holds, arming none;
    focus moving out of it clears [isFocused], leaves the visibility alone
    and arms one more timer for the debounce interval whose callback holds
    [isFocused = false]. *)
Theorem focus_shows_blur_arms (timeout : Z) (l : list Action) :
  exists w0 w,
    mount (initial resolved timeout) = Ok w0
    /\ run l w0 = Ok w
    /\ (exists w1,
          act (Focus true) w = Ok w1
          /\ isFocused w1 = true
          /\ showMovers w1 = true
          /\ timers w1
             = match timeoutRef w with
               | Some h =>
                   filter (fun t => negb (Pos.eqb (handle t) h)) (timers w)
               | None => timers w
               end)
    /\ (exists w2,
          act (Focus false) w = Ok w2
          /\ isFocused w2 = false
          /\ showMovers w2 = showMovers w
          /\ timers w2
             = timers w ++ [ {| handle := nextHandle w;
                                delay := debounceTimeout w;
                                t_isFocused := false |} ]
          /\ timeoutRef w2 = Some (nextHandle w)).
Proof.
  destruct (mount_wired timeout) as [w0 [Hm H0]].
  destruct (run_wired l w0 H0) as [w [Hrun H]].
  exists w0, w. split; [ exact Hm | ]. split; [ exact Hrun | ].
  exact (focus_on_wired w H).
Qed.

(** *** Requests that undo each other *)

Lemma filter_fresh (ts : list Timer) (h : positive) :
  Forall (fun t => (handle t < h)%positive) ts ->
  filter (fun t => negb (Pos.eqb (handle t) h)) ts = ts.
Proof.
  induction 1 as [|t ts Ht _ IH]; simpl; [ reflexivity | ].
  destruct (Pos.eqb_spec (handle t) h) as [E | _]; [ lia | ].
  simpl. now rewrite IH.
Qed.

Lemma find_fresh (ts : list Timer) (h : positive) :
  Forall (fun t => (handle t < h)%positive) ts ->
  find (fun t => Pos.eqb (handle t) h) ts = None.
Proof.
  induction 1 as [|t ts Ht _ IH]; simpl; [ reflexivity | ].
  destruct (Pos.eqb_spec (handle t) h) as [E | _]; [ lia | exact IH ].
Qed.

(** X4: a show request that follows a hide request undoes it: the timer the
    hide request armed is cancelled and the pending timers are again those
    from before the two requests, whichever renders the two callbacks come
    from. *)
Theorem show_undoes_hide (c f : bool) (e1 e2 : option nat) (w : World) :
  fresh w ->
  timers (debouncedShowMovers c e2 (debouncedHideMovers f e1 w)) = timers w
  /\ pending (nextHandle w)
       (debouncedShowMovers c e2 (debouncedHideMovers f e1 w)) = None.
Proof.
  intros Hfresh.
  assert (Ht : timers (debouncedShowMovers c e2 (debouncedHideMovers f e1 w))
               = timers w).
  { unfold debouncedShowMovers.
    assert (Href : timeoutRef
                     (stopPropagation e2 (debouncedHideMovers f e1 w))
                   = Some (nextHandle w))
      by (destruct e2, e1; reflexivity).
    rewrite Href.
    assert (Hcl : timers (clearTimeout (nextHandle w)
                            (stopPropagation e2 (debouncedHideMovers f e1 w)))
                  = timers w).
    { simpl. rewrite timers_stopPropagation, debouncedHideMovers_timers.
      rewrite filter_app. simpl. rewrite Pos.eqb_refl. simpl.
      rewrite app_nil_r. now apply filter_fresh. }
    destruct (negb c); exact Hcl. }
  split; [ exact Ht | ].
  unfold pending. rewrite Ht. now apply find_fresh.
Qed.

Lemma show_undoes_hide_witness :
  let w := debouncedHideMovers false None
             (setShowMovers true (initial resolved 500)) in
  fresh w
  /\ timers (debouncedShowMovers true (Some 2%nat)
               (debouncedHideMovers false (Some 1%nat) w)) = timers w
  /\ pending (nextHandle w)
       (debouncedShowMovers true (Some 2%nat)
          (debouncedHideMovers false (Some 1%nat) w)) = None.
Proof.
  intros w.
  assert (H : fresh w) by (repeat constructor).
  split; [ exact H | ].
  exact (show_undoes_hide true false (Some 1%nat) (Some 2%nat) w H).
Defined.

(** X5: on a mounted toolbar whose element is not hovered, focus leaving
    the element followed by the expiry of the timer that the blur armed hides
    the movers. *)
Theorem blur_then_timeout_hides (w : World) :
  wired w ->
  fresh w ->
  hover (element w) = false ->
  exists w1 w2,
    act (Focus false) w = Ok w1
    /\ fire (nextHandle w) w1 = Ok w2
    /\ showMovers w2 = false
    /\ isFocused w2 = false
    /\ pending (nextHandle w) w2 = None.
Proof.
  intros H Hfresh Hhover.
  rewrite (act_focus_out w H). eexists. eexists.
  split; [ reflexivity | ].
  set (w0 := setIsFocused false (set_containsActiveElement false w)).
  assert (Hf0 : fresh w0) by (revert Hfresh; now apply fresh_same).
  pose proof (armed_timer_is_pending false None w0 Hf0) as Hp.
  unfold pending in Hp. simpl in Hp.
  unfold fire. simpl. fold w0. rewrite Hp.
  rewrite hideCallback_resolved by (simpl; apply H).
  simpl. rewrite Hhover. simpl.
  split; [ reflexivity | ].
  repeat split.
  unfold pending. simpl. rewrite filter_app. simpl.
  rewrite Pos.eqb_refl. simpl. rewrite app_nil_r.
  rewrite filter_fresh by exact Hfresh.
  now apply find_fresh.
Qed.

Lemma blur_then_timeout_hides_witness :
  let w := {| ref := resolved; debounceTimeout := 500;
              element := {| hover := false; containsActiveElement := true;
                            listeners := firstListeners |};
              timers := []; nextHandle := 1; stopped := [];
              showMovers := true; isFocused := true;
              timeoutRef := None; registerRef := true;
              effectCleanup := None; effectRuns := 2 |} in
  wired w
  /\ fresh w
  /\ hover (element w) = false
  /\ exists w1 w2,
       act (Focus false) w = Ok w1
       /\ fire (nextHandle w) w1 = Ok w2
       /\ showMovers w2 = false
       /\ isFocused w2 = false
       /\ pending (nextHandle w) w2 = None.
Proof.
  intros w.
  assert (H : wired w) by (repeat split).
  assert (Hf : fresh w) by constructor.
  split; [ exact H | ]. split; [ exact Hf | ]. split; [ reflexivity | ].
  exact (blur_then_timeout_hides w H Hf eq_refl).
Defined.

(** *** The timer [timeoutRef] holds sees the current focus *)

Lemma debouncedShowMovers_fields (c : bool) (event : option nat) (w : World) :
  isFocused (debouncedShowMovers c event w) = isFocused w
  /\ element (debouncedShowMovers c event w) = element w
  /\ timeoutRef (debouncedShowMovers c event w) = timeoutRef w
  /\ timers (debouncedShowMovers c event w)
     = match timeoutRef w with
       | Some h => filter (fun t => negb (Pos.eqb (handle t) h)) (timers w)
       | None => timers w
       end.
Proof.
  unfold debouncedShowMovers.
  destruct event; simpl; destruct (timeoutRef w) eqn:E; destruct c; simpl;
    repeat split; exact E.
Qed.

(** After a show request the timer [timeoutRef] holds is not pending. *)
Lemma show_clears_tracked (c : bool) (event : option nat) (w : World)
    (t : Timer) :
  In t (timers (debouncedShowMovers c event w)) ->
  timeoutRef (debouncedShowMovers c event w) = Some (handle t) ->
  False.
Proof.
  destruct (debouncedShowMovers_fields c event w) as [_ [_ [Hr Ht]]].
  rewrite Hr, Ht. intros Hin Href. rewrite Href in Hin.
  apply filter_In in Hin as [_ Hne].
  now rewrite Pos.eqb_refl in Hne.
Qed.

(** After a hide request it is the timer just armed. *)
Lemma hide_tracks_new (c : bool) (event : option nat) (w : World)
    (t : Timer) :
  fresh w ->
  In t (timers (debouncedHideMovers c event w)) ->
  timeoutRef (debouncedHideMovers c event w) = Some (handle t) ->
  t_isFocused t = c.
Proof.
  intros Hfresh. rewrite debouncedHideMovers_timers,
    debouncedHideMovers_timeoutRef.
  intros Hin [= Hh]. apply in_app_or in Hin as [Hold | [<- | []]].
  - unfold fresh in Hfresh.
    pose proof (proj1 (Forall_forall _ _) Hfresh t Hold) as Hlt.
    simpl in Hlt. lia.
  - reflexivity.
Qed.

Lemma synced_act (a : Action) (w w1 : World) :
  wired w -> fresh w -> synced w -> act a w = Ok w1 -> synced w1.
Proof.
  intros Hw Hf [Hdom Htr].
  destruct a as [e | e | b | [|] | h].
  - intros [= <-]. unfold onMouseMove.
    destruct (debouncedShowMovers_fields (showMovers w) (Some e) w)
      as [Hi [He _]].
    split; [ now rewrite Hi, He | ].
    intros t Hin Href. now destruct (show_clears_tracked _ _ _ _ Hin Href).
  - intros [= <-]. unfold onMouseLeave. split; [ exact Hdom | ].
    intros t Hin Href.
    now apply (hide_tracks_new (isFocused w) (Some e) w t Hf).
  - intros [= <-]. split; [ exact Hdom | exact Htr ].
  - rewrite (act_focus_in w Hw). intros [= <-].
    destruct (debouncedShowMovers_fields false None
                (setIsFocused true (set_containsActiveElement true w)))
      as [Hi [He _]].
    split; [ now rewrite Hi, He | ].
    intros t Hin Href. now destruct (show_clears_tracked _ _ _ _ Hin Href).
  - rewrite (act_focus_out w Hw). intros [= <-].
    split; [ reflexivity | ].
    intros t Hin Href.
    apply (hide_tracks_new false None
             (setIsFocused false (set_containsActiveElement false w)) t);
      [ | exact Hin | exact Href ].
    revert Hf. now apply fresh_same.
  - simpl. unfold fire.
    destruct (find _ (timers w)) as [t0|]; [ | intros [= <-]; now split ].
    rewrite hideCallback_resolved by (simpl; apply Hw).
    intros [= <-].
    assert (Hsub : forall t,
              In t (filter (fun t => negb (Pos.eqb (handle t) h)) (timers w))
              -> In t (timers w))
      by (intros t Hin; now apply filter_In in Hin).
    simpl.
    destruct (negb (t_isFocused t0) && negb (hover (element w))); simpl;
      (split; [ exact Hdom | ]); intros t Hin Href;
      apply Htr; auto.
Qed.

Lemma synced_step (a : Action) (w w' : World) :
  wired w -> fresh w -> synced w -> step a w = Ok w' -> synced w'.
Proof.
  intros Hw Hf Hs Hstep. unfold step in Hstep.
  destruct (act a w) as [w1|e] eqn:Hact; simpl in Hstep; [ | discriminate ].
  pose proof (synced_act a w w1 Hw Hf Hs Hact) as H1.
  destruct (act_wired a w Hw) as [w1' [Hact' Hw1]].
  rewrite Hact in Hact'. injection Hact' as <-.
  destruct (rerender_wired w w1 Hw1) as [c [n Hre]].
  rewrite Hre in Hstep. injection Hstep as <-. exact H1.
Qed.

Lemma run_synced (l : list Action) :
  forall w w',
    wired w -> fresh w -> synced w -> run l w = Ok w' -> synced w'.
Proof.
  induction l as [|a rest IH]; simpl; intros w w' Hw Hf Hs.
  - now intros [= <-].
  - destruct (step a w) as [w1|e] eqn:Hstep; simpl; [ | discriminate ].
    destruct (step_wired a w Hw) as [w1' [Hstep' Hw1]].
    rewrite Hstep in Hstep'. injection Hstep' as <-.
    apply IH; [ exact Hw1 | | ].
    + now apply (fresh_step a w).
    + now apply (synced_step a w).
Qed.

(** Where the missing cancellation plays no part the re-check is right: on a
    toolbar attached at mount, after any run, the timer that [timeoutRef]
    holds, if still pending, fires without error, and on visible movers it
    hides them exactly when the element is then neither focused within nor
    hovered. *)
Lemma tracked_timer_rechecks_focus (timeout : Z) (l : list Action) :
  exists w0 w,
    mount (initial resolved timeout) = Ok w0
    /\ run l w0 = Ok w
    /\ forall h t,
         timeoutRef w = Some h ->
         pending h w = Some t ->
         exists w',
           fire h w = Ok w'
           /\ (showMovers w = true ->
               (showMovers w' = false
                <-> containsActiveElement (element w) = false
                    /\ hover (element w) = false)).
Proof.
  destruct (mount_wired timeout) as [w0 [Hm H0]].
  destruct (run_wired l w0 H0) as [w [Hrun Hw]].
  exists w0, w. split; [ exact Hm | ]. split; [ exact Hrun | ].
  assert (Hs : synced w).
  { apply (run_synced l w0 w H0); [ | | exact Hrun ].
    - now apply (fresh_mounted resolved timeout).
    - injection Hm as <-. split; [ reflexivity | intros t [] ]. }
  intros h t Href Hp. unfold pending in Hp.
  pose proof (find_some _ _ Hp) as [Hin Hh]. apply Pos.eqb_eq in Hh.
  destruct Hs as [Hdom Htr].
  assert (Hcap : t_isFocused t = containsActiveElement (element w))
    by (rewrite <- Hdom; apply Htr; [ exact Hin | now rewrite Hh ]).
  unfold fire. rewrite Hp.
  rewrite hideCallback_resolved by (simpl; apply Hw).
  eexists. split; [ reflexivity | ].
  intros Hv. simpl. rewrite Hcap.
  destruct (containsActiveElement (element w)), (hover (element w)); simpl;
    rewrite ?Hv; intuition congruence.
Qed.

End DebouncerRuns.

(** * More on the frame loop *)

Section FrameLoopRuns.

Import FrameLoop.

(** X6: the direction of a computed translation.  A left overflow moves the
    anchor right by more than nothing, and wins when both sides overflow; a
    right overflow alone moves it left by more than the buffer.  So a computed
    translation is never zero and the test [if ( nextTranslateX )] never
    drops one. *)
Theorem translation_direction (container node : Rect) (t : Z) :
  nextTranslateX container node = Some t ->
  (isOverflowLeft container node = true
   /\ t = x container - totalOffsetLeft node /\ 0 < t)
  \/ (isOverflowLeft container node = false
      /\ isOverflowRight container node = true
      /\ t = containerRight container - nodeRight node - buffer
      /\ t < - buffer).
Proof.
  unfold nextTranslateX.
  destruct (isOverflowLeft container node) eqn:Hl.
  - intros [= <-]. left. unfold isOverflowLeft in Hl.
    apply Z.ltb_lt in Hl. repeat split. lia.
  - destruct (isOverflowRight container node) eqn:Hr; [ | discriminate ].
    intros [= <-]. right. unfold isOverflowRight in Hr.
    apply Z.ltb_lt in Hr. repeat split. lia.
Qed.

Lemma translation_direction_witness :
  let container := {| x := 0; width := 100 |} in
  let node := {| x := 30; width := 200 |} in
  nextTranslateX container node = Some 26
  /\ ((isOverflowLeft container node = true
       /\ 26 = x container - totalOffsetLeft node /\ 0 < 26)
      \/ (isOverflowLeft container node = false
          /\ isOverflowRight container node = true
          /\ 26 = containerRight container - nodeRight node - buffer
          /\ 26 < - buffer)).
Proof.
  split; [ reflexivity | ].
  exact (translation_direction {| x := 0; width := 100 |}
           {| x := 30; width := 200 |} 26 eq_refl).
Defined.

(** *** The loop *)

Lemma hideOnInitialRender_frames (w w' : World) :
  hideOnInitialRender w = Ok w' ->
  frames w' = frames w /\ nextHandle w' = nextHandle w.
Proof.
  unfold hideOnInitialRender.
  destruct (current w) as [[[target|]]|] eqn:Hc; try discriminate;
    intros [= <-]; [ | now split ].
  unfold set_opacity. rewrite Hc. now split.
Qed.

Lemma frames_run_chained (hs : list positive) :
  forall w w', chained w -> frames_run hs w = Ok w' -> chained w'.
Proof.
  induction hs as [|h rest IH]; simpl; intros w w' H.
  - now intros [= <-].
  - destruct (frame h w) as [w1|e] eqn:Hf; simpl; [ | discriminate ].
    apply IH. now apply (frame_chained h w).
Qed.

(** X8: the loop keeps exactly one frame pending.  After the hooks are
    mounted on a window with no frame of theirs pending, and after the window
    has run any frames (its own pending one, or handles that are not
    pending), the one pending frame is the one [rafLoopRef] holds, and
    unmounting cancels it: no frame is left. *)
Theorem frame_loop_one_pending_until_unmount
    (w0 w1 w : World) (hs : list positive) :
  frames w0 = [] ->
  mount w0 = Ok w1 ->
  frames_run hs w1 = Ok w ->
  (exists h, rafLoopRef w = Some h /\ frames w = [h])
  /\ frames (unmount w) = [].
Proof.
  intros H0 Hm Hrun.
  assert (Hc : chained w).
  { apply (frames_run_chained hs w1); [ | exact Hrun ].
    unfold mount in Hm.
    destruct (hideOnInitialRender w0) as [w0'|e] eqn:Hh; simpl in Hm;
      [ | discriminate ].
    injection Hm as <-. apply effect_chained.
    apply hideOnInitialRender_frames in Hh as [Hf _]. now rewrite Hf. }
  split; [ exact Hc | now apply frame_loop_unmount_no_frames ].
Qed.

Lemma frame_loop_one_pending_until_unmount_witness :
  let w0 := measured {| x := 0; width := 800 |} {| x := 770; width := 100 |}
              {| transform := None; opacity := None |} in
  exists w1 w,
    frames w0 = []
    /\ mount w0 = Ok w1
    /\ frames_run [1; 2; 7; 3]%positive w1 = Ok w
    /\ (exists h, rafLoopRef w = Some h /\ frames w = [h])
    /\ frames (unmount w) = [].
Proof.
  eexists. eexists.
  split; [ reflexivity | ].
  split; [ reflexivity | ].
  split; [ vm_compute; reflexivity | ].
  eapply (frame_loop_one_pending_until_unmount
            (measured {| x := 0; width := 800 |} {| x := 770; width := 100 |}
                      {| transform := None; opacity := None |}) _ _
            [1; 2; 7; 3]%positive eq_refl eq_refl).
  vm_compute. reflexivity.
Defined.

(** X9: the target is hidden until it has been measured.  Mounting on an
    attached anchor sets the opacity to 0 and requests one frame.  When that
    frame runs, a measured left edge that is not negative sets the opacity
    to 1; a negative one leaves the opacity at 0; either way the next frame is
    requested. *)
Theorem hidden_until_measured (w : World) (target : Parent) (container : Rect) :
  current w = Some {| parentElement := Some target |} ->
  containerNode w = Some container ->
  frames w = [] ->
  exists w1 w2,
    mount w = Ok w1
    /\ targetStyle w1 = Some {| transform := transform (style target);
                               opacity := Some 0 |}
    /\ frames w1 = [nextHandle w]
    /\ frame (nextHandle w) w1 = Ok w2
    /\ frames w2 = [Pos.succ (nextHandle w)]
    /\ (0 <= left (rect target) ->
        exists s, targetStyle w2 = Some s /\ opacity s = Some 1)
    /\ (left (rect target) < 0 -> targetStyle w2 = targetStyle w1).
Proof.
  intros Hc Hk Hf.
  destruct w as [cur cont raf fr nh]. simpl in Hc, Hk, Hf. subst.
  unfold mount, hideOnInitialRender, frame, rafCallback, updatePosition,
    effect, requestAnimationFrame, cancelAnimationFrame, set_opacity,
    assignTransform, set_transform, targetStyle.
  destruct (left (rect target) <? 0) eqn:E;
    [ apply Z.ltb_lt in E as E' | apply Z.ltb_ge in E as E' ];
    [ | destruct (nextTranslateX container (rect target)) as [t|] eqn:En;
        [ destruct (t =? 0) eqn:Et | ] ];
    eexists; eexists;
    (split; [ reflexivity | ]); (split; [ reflexivity | ]);
    (split; [ reflexivity | ]);
    simpl; rewrite ?Pos.eqb_refl; simpl; rewrite E; simpl;
    rewrite ?En; simpl; rewrite ?Et; simpl;
    rewrite ?Pos.eqb_refl; simpl;
    (split; [ reflexivity | ]); (split; [ reflexivity | ]); split;
    try lia; try reflexivity;
    intros _; eexists; split; reflexivity.
Qed.

Lemma hidden_until_measured_witness :
  let target := {| rect := {| x := 20; width := 100 |};
                   style := {| transform := None; opacity := None |} |} in
  let container := {| x := 0; width := 800 |} in
  let w := measured container (rect target) (style target) in
  frames w = []
  /\ exists w1 w2,
      mount w = Ok w1
      /\ targetStyle w1 = Some {| transform := None; opacity := Some 0 |}
      /\ frame 1 w1 = Ok w2
      /\ targetStyle w2 = Some {| transform := Some 36; opacity := Some 1 |}.
Proof.
  split; [ reflexivity | ].
  destruct (hidden_until_measured
              (measured {| x := 0; width := 800 |} {| x := 20; width := 100 |}
                        {| transform := None; opacity := None |})
              {| rect := {| x := 20; width := 100 |};
                 style := {| transform := None; opacity := None |} |}
              {| x := 0; width := 800 |} eq_refl eq_refl eq_refl)
    as [w1 [w2 [Hm [Hs [_ [Hfr _]]]]]].
  exists w1, w2. split; [ exact Hm | ]. split; [ exact Hs | ].
  split; [ exact Hfr | ].
  revert Hfr. injection Hm as <-. vm_compute. now intros [= <-].
Defined.

End FrameLoopRuns.

(** * More on the resize variant *)

Section ResizeRuns.

Import Resize.

(** X12: re-running the layout effect never leaves two settle timers.  If
    at most the timer in [transformTimeout] is pending, then after the effect
    exactly one timer is pending, the new one, [transformTimeout] holds it,
    and the resize listener is on. *)
Theorem effect_rearms_one_settle_timer (v : World) :
  settled v ->
  timers (effect v) = [nextHandle v]
  /\ transformTimeout (effect v) = Some (nextHandle v)
  /\ resizeListener (effect v) = true
  /\ settled (effect v).
Proof.
  intros H.
  assert (Hc : timers (clearTransformTimeout v) = []).
  { unfold clearTransformTimeout.
    destruct H as [Hnone | [h [Hone Href]]].
    - destruct (transformTimeout v); simpl; now rewrite Hnone.
    - rewrite Href. simpl. rewrite Hone. simpl. now rewrite Pos.eqb_refl. }
  assert (Hn : nextHandle (clearTransformTimeout v) = nextHandle v)
    by (unfold clearTransformTimeout; now destruct (transformTimeout v)).
  unfold effect. simpl. rewrite Hc, Hn. simpl.
  repeat split. right. exists (nextHandle v). now split.
Qed.

Lemma effect_rearms_one_settle_timer_witness :
  let v := {| containerNode := None; editorNode := None;
              transformTimeout := Some 4%positive; timers := [4%positive];
              frames := []; resizeListener := true; nextHandle := 5 |} in
  settled v
  /\ timers (effect v) = [5%positive]
  /\ transformTimeout (effect v) = Some 5%positive
  /\ resizeListener (effect v) = true
  /\ settled (effect v).
Proof.
  intros v.
  assert (H : settled v) by (right; exists 4%positive; now split).
  split; [ exact H | ].
  exact (effect_rearms_one_settle_timer v H).
Defined.

(** X13: from mount to the first position.  With the anchor, its parent and
    the editor present, the settle timer of the effect reveals the target
    (opacity 1) with its transform untouched and requests one frame; that
    frame assigns the translation and stores it.  Afterwards no timer and no
    frame is pending. *)
Theorem mount_settle_frame (v : World) (node : Element) (s : Style)
    (editorX : Z) :
  containerNode v = Some node ->
  parentElement node = Some s ->
  editorNode v = Some editorX ->
  timers v = [] ->
  frames v = [] ->
  exists v1 v2,
    fire (nextHandle v) (effect v) = Ok v1
    /\ containerNode v1
       = Some {| nodeX := nodeX node;
                 dataTransformOffset := dataTransformOffset node;
                 parentElement := Some {| transform := transform s;
                                          opacity := Some 1 |} |}
    /\ frames v1 = [Pos.succ (nextHandle v)]
    /\ frame (Pos.succ (nextHandle v)) v1 = Ok v2
    /\ containerNode v2
       = Some {| nodeX := nodeX node;
                 dataTransformOffset := Some (nextTranslateX editorX node);
                 parentElement :=
                   Some {| transform := Some (nextTranslateX editorX node);
                           opacity := Some 1 |} |}
    /\ timers v2 = []
    /\ frames v2 = [].
Proof.
  intros Hc Hp He Ht Hf.
  destruct v as [cn en tt ts fs rl nh]. simpl in Hc, He, Ht, Hf. subst.
  destruct node as [nx attr par]. simpl in Hp. subst.
  unfold fire, effect, clearTransformTimeout, settle, frame, repositionFrame,
    reposition, set_opacity.
  destruct tt; simpl; rewrite ?Pos.eqb_refl; simpl;
    eexists; eexists;
    (split; [ reflexivity | ]); (split; [ reflexivity | ]);
    (split; [ reflexivity | ]);
    simpl; rewrite ?Pos.eqb_refl; simpl;
    (split; [ reflexivity | ]); repeat split.
Qed.

Lemma mount_settle_frame_witness :
  let node := {| nodeX := 30; dataTransformOffset := None;
                 parentElement := Some {| transform := None;
                                          opacity := None |} |} in
  let v := {| containerNode := Some node; editorNode := Some 0;
              transformTimeout := None; timers := []; frames := [];
              resizeListener := false; nextHandle := 1 |} in
  timers v = []
  /\ frames v = []
  /\ exists v1 v2,
      fire 1 (effect v) = Ok v1
      /\ frame 2 v1 = Ok v2
      /\ containerNode v2
         = Some {| nodeX := 30; dataTransformOffset := Some 26;
                   parentElement := Some {| transform := Some 26;
                                            opacity := Some 1 |} |}
      /\ timers v2 = []
      /\ frames v2 = [].
Proof.
  intros node v.
  split; [ reflexivity | ]. split; [ reflexivity | ].
  destruct (mount_settle_frame v node
              {| transform := None; opacity := None |} 0
              eq_refl eq_refl eq_refl eq_refl eq_refl)
    as [v1 [v2 [H1 [_ [_ [H2 [H3 [H4 H5]]]]]]]].
  exists v1, v2. repeat split; assumption.
Defined.

End ResizeRuns.

(** * The toolbar's own gesture hook *)

Section LocalGesturesFacts.

Import LocalGestures.

Lemma local_filter_fresh (ts : list Timer) (h : positive) :
  Forall (fun t => (handle t < h)%positive) ts ->
  filter (fun t => negb (Pos.eqb (handle t) h)) ts = ts.
Proof.
  induction 1 as [|t ts Ht _ IH]; simpl; [ reflexivity | ].
  destruct (Pos.eqb_spec (handle t) h) as [E | _]; [ lia | ].
  simpl. now rewrite IH.
Qed.

Lemma gestureMove_attached (node : Debouncer.Element) (e : nat) (w : World) :
  current w = Some node ->
  current (gestureMove e w) = Some node
  /\ showMovers (gestureMove e w) = true
  /\ nextHandle (gestureMove e w) = nextHandle w
  /\ debounceTimeout (gestureMove e w) = debounceTimeout w
  /\ timers (gestureMove e w)
     = match timeoutRef w with
       | Some h => filter (fun t => negb (Pos.eqb (handle t) h)) (timers w)
       | None => timers w
       end.
Proof.
  intros Hc. unfold gestureMove, onMouseMove. rewrite Hc. simpl.
  destruct (timeoutRef w); simpl; repeat split; exact Hc.
Qed.

Lemma fresh_gestureMove (e : nat) (w : World) :
  fresh w -> fresh (gestureMove e w).
Proof.
  unfold fresh, gestureMove, onMouseMove. intros H.
  destruct (current w); [ | exact H ]. simpl.
  destruct (timeoutRef w); simpl; [ | exact H ].
  apply Forall_forall. intros t Ht. apply filter_In in Ht as [Ht _].
  revert t Ht. now apply Forall_forall.
Qed.

(** X15: the cycle of the toolbar's own hook.  On an attached element a
    pointer move shows the movers; a pointer leave that follows arms one timer
    for the debounce interval; when that timer fires the movers are hidden,
    whatever the pointer or the focus do meanwhile, and the pending timers
    are those left by the move. *)
Theorem local_move_leave_expire (node : Debouncer.Element) (e1 e2 : nat)
    (w : World) :
  current w = Some node ->
  fresh w ->
  let w1 := gestureMove e1 w in
  let w2 := gestureLeave e2 w1 in
  showMovers w1 = true
  /\ timers w2
     = timers w1 ++ [ {| handle := nextHandle w;
                         delay := debounceTimeout w |} ]
  /\ showMovers (fire (nextHandle w) w2) = false
  /\ timers (fire (nextHandle w) w2) = timers w1.
Proof.
  intros Hc Hfresh w1 w2.
  destruct (gestureMove_attached node e1 w Hc) as [Hc1 [Hs1 [Hn1 [Hd1 _]]]].
  fold w1 in Hc1, Hs1, Hn1, Hd1.
  assert (Hf1 : fresh w1) by now apply fresh_gestureMove.
  assert (Ht2 : timers w2
                = timers w1 ++ [ {| handle := nextHandle w;
                                    delay := debounceTimeout w |} ]).
  { unfold w2, gestureLeave, onMouseLeave. rewrite Hc1, Hs1. simpl.
    now rewrite Hn1, Hd1. }
  assert (Hex : existsb (fun t => Pos.eqb (handle t) (nextHandle w))
                        (timers w2) = true).
  { rewrite Ht2, existsb_app. simpl. rewrite Pos.eqb_refl.
    now rewrite orb_true_r. }
  split; [ exact Hs1 | ]. split; [ exact Ht2 | ].
  unfold fire. rewrite Hex. simpl. split; [ reflexivity | ].
  rewrite Ht2, filter_app. simpl. rewrite Pos.eqb_refl. simpl.
  rewrite app_nil_r. apply local_filter_fresh.
  unfold fresh in Hf1. now rewrite Hn1 in Hf1.
Qed.

Lemma local_move_leave_expire_witness :
  let w := {| current := Some Debouncer.region; debounceTimeout := 300;
              showMovers := false; timeoutRef := None; timers := [];
              nextHandle := 1; stopped := [] |} in
  current w = Some Debouncer.region
  /\ fresh w
  /\ showMovers (gestureMove 1 w) = true
  /\ timers (gestureLeave 2 (gestureMove 1 w))
     = [ {| handle := 1; delay := 300 |} ]
  /\ showMovers (fire 1 (gestureLeave 2 (gestureMove 1 w))) = false
  /\ timers (fire 1 (gestureLeave 2 (gestureMove 1 w))) = [].
Proof.
  intros w.
  assert (Hf : fresh w) by constructor.
  split; [ reflexivity | ]. split; [ exact Hf | ].
  exact (local_move_leave_expire Debouncer.region 1 2 w eq_refl Hf).
Defined.

(** X16: the guards of the toolbar's own hook.  With a detached element
    both gestures return at once and change nothing; while the movers are
    hidden a pointer leave arms no timer; and while they are visible on an
    attached element a pointer move that follows a leave cancels the timer
    the leave armed, so the pending timers are those from before the leave. *)
Theorem local_gesture_guards (e1 e2 : nat) (w : World) :
  fresh w ->
  (current w = None -> gestureMove e1 w = w /\ gestureLeave e1 w = w)
  /\ (showMovers w = false ->
      timers (gestureLeave e1 w) = timers w
      /\ timeoutRef (gestureLeave e1 w) = timeoutRef w)
  /\ (current w <> None -> showMovers w = true ->
      timers (gestureMove e2 (gestureLeave e1 w)) = timers w
      /\ showMovers (gestureMove e2 (gestureLeave e1 w)) = true).
Proof.
  intros Hfresh. split; [ | split ].
  - intros Hc. unfold gestureMove, gestureLeave, onMouseMove, onMouseLeave.
    now rewrite Hc.
  - intros Hs. unfold gestureLeave, onMouseLeave. rewrite Hs.
    now destruct (current w).
  - intros Hc Hs. unfold gestureMove, gestureLeave, onMouseMove, onMouseLeave.
    destruct (current w) as [node|] eqn:Hn; [ | contradiction ].
    rewrite Hs. simpl. rewrite Hn. simpl. split; [ | reflexivity ].
    rewrite filter_app. simpl. rewrite Pos.eqb_refl. simpl.
    rewrite app_nil_r. now apply local_filter_fresh.
Qed.

Lemma local_gesture_guards_witness :
  let w := {| current := Some Debouncer.region; debounceTimeout := 300;
              showMovers := true; timeoutRef := Some 1%positive;
              timers := [ {| handle := 1; delay := 300 |} ];
              nextHandle := 2; stopped := [] |} in
  fresh w
  /\ timers (gestureLeave 5 w)
     = [ {| handle := 1; delay := 300 |}; {| handle := 2; delay := 300 |} ]
  /\ timers (gestureMove 6 (gestureLeave 5 w)) = timers w
  /\ showMovers (gestureMove 6 (gestureLeave 5 w)) = true.
Proof.
  intros w.
  assert (Hf : fresh w) by (repeat constructor).
  split; [ exact Hf | ]. split; [ reflexivity | ].
  destruct (local_gesture_guards 5 6 w Hf) as [_ [_ H]].
  apply H; [ discriminate | reflexivity ].
Defined.

End LocalGesturesFacts.

(** * What the toolbar renders, and the post author block *)

Section RenderingFacts.

Import Toolbar.

Lemma Mode_eqb_visual (m : Mode) : Mode_eqb m visual = true <-> m = visual.
Proof. destruct m; simpl; split; congruence. Qed.

(** X17: when the toolbar renders what.  It renders nothing exactly when no
    block is selected.  Otherwise the controls slots are rendered exactly
    when one block is selected and that block is valid and in visual mode; the
    block switcher exactly when the slots are or several blocks are selected;
    and the movers are marked visible (class, opacity 1, no shift) exactly
    when the gesture hook says so and the block list settings do not turn
    movers off. *)
Theorem toolbar_rendering (st : Store) (showMovers : bool) :
  match BlockToolbar st showMovers with
  | None => getSelectedBlockClientIds st = []
  | Some r =>
      getSelectedBlockClientIds st <> []
      /\ (slots r = true
          <-> exists id,
                getSelectedBlockClientIds st = [ id ]
                /\ isBlockValid st id = true
                /\ getBlockMode st id = visual)
      /\ (switcher r = true
          <-> slots r = true
              \/ (2 <= length (getSelectedBlockClientIds st))%nat)
      /\ (withMovers r = true
          <-> showMovers = true /\ uiPartsHasMovers st <> Some false)
      /\ (moverOpacity r = 1 <-> withMovers r = true)
      /\ moverShifted r = negb (withMovers r)
  end.
Proof.
  assert (Hmovers : forall b : bool,
            (showMovers && match uiPartsHasMovers st with
                           | Some h => h
                           | None => true
                           end = true
             <-> showMovers = true /\ uiPartsHasMovers st <> Some false)).
  { intros _. destruct showMovers, (uiPartsHasMovers st) as [[|]|]; simpl;
      intuition congruence. }
  assert (Hopacity : forall b : bool, (if b then 1 else 0) = 1 <-> b = true)
    by (intros [|]; intuition congruence).
  unfold BlockToolbar, select. simpl.
  destruct (getSelectedBlockClientIds st) as [|id [|id2 rest]] eqn:Hids;
    simpl.
  - reflexivity.
  - split; [ discriminate | ].
    split; [ | split; [ | split; [ apply (Hmovers true) | split;
      [ apply Hopacity | reflexivity ] ] ] ].
    + rewrite andb_true_r. split.
      * intros H. exists id. split; [ reflexivity | ].
        destruct (isBlockValid st id); [ | discriminate ].
        split; [ reflexivity | ]. now apply Mode_eqb_visual.
      * intros [i [[= <-] [Hv Hm]]]. rewrite Hv, Hm. reflexivity.
    + rewrite andb_true_r, orb_false_r. split.
      * now left.
      * intros [H | H]; [ exact H | lia ].
  - split; [ discriminate | ].
    split; [ | split; [ | split; [ apply (Hmovers true) | split;
      [ apply Hopacity | reflexivity ] ] ] ].
    + rewrite ?andb_false_r. split; [ discriminate | ].
      intros [i [[=] _]].
    + rewrite ?orb_true_r. split; [ | reflexivity ].
      intros _. right. simpl. lia.
Qed.

End RenderingFacts.

Section PostAuthorFacts.

Import String.
Import PostAuthor.

Lemma truthyNumber_nonzero (z : Z) :
  truthyNumber (Some z) = true <-> z <> 0.
Proof.
  simpl. destruct (Z.eqb_spec z 0); simpl; split; congruence.
Qed.

Lemma effectiveAvatarSize_truthy (attributes : Attributes) :
  truthyNumber (Some (effectiveAvatarSize attributes)) = true.
Proof.
  unfold effectiveAvatarSize.
  destruct (avatarSize attributes) as [z|]; [ | reflexivity ].
  destruct (truthyNumber (Some z)) eqn:E; [ exact E | reflexivity ].
Qed.

Lemma effectiveAvatarSize_set (attributes attributes' : Attributes) :
  avatarSize attributes' = Some (effectiveAvatarSize attributes) ->
  effectiveAvatarSize attributes' = effectiveAvatarSize attributes.
Proof.
  intros H. unfold effectiveAvatarSize at 1. rewrite H.
  now rewrite effectiveAvatarSize_truthy.
Qed.

(** X18: the attributes that [PostAuthorEdit] sets while rendering are a
    fixed point.  If the store files each user under its own id, a render
    that shows an author sets attributes under which the next render picks
    the same author and sets the same attributes again; the avatar size it
    sets is never missing or zero (24 replaces either), and the avatar URL is
    the author's URL for that size. *)
Theorem setAttributes_reaches_fixed_point
    (getEntityRecord : Z -> option Author) (postAuthor : Z)
    (attributes attributes' : Attributes) (author : Author) :
  keyed getEntityRecord ->
  PostAuthorEdit getEntityRecord postAuthor attributes
  = Display attributes' author ->
  PostAuthorEdit getEntityRecord postAuthor attributes'
  = Display attributes' author
  /\ truthyNumber (avatarSize attributes') = true
  /\ (exists size,
        avatarSize attributes' = Some size
        /\ avatarUrl attributes' = lookup size (avatar_urls author)).
Proof.
  intros Hkeyed. unfold PostAuthorEdit at 1.
  destruct (getEntityRecord (authorId postAuthor attributes)) as [a|] eqn:Hg;
    [ | discriminate ].
  intros [= <- <-].
  pose proof (Hkeyed _ _ Hg) as Hid.
  pose proof (effectiveAvatarSize_truthy attributes) as Hsize.
  set (attributes' :=
         {| id := Some (a_id a); name := Some (a_name a);
            description := Some (a_description a);
            avatarSize := Some (effectiveAvatarSize attributes);
            avatarUrl :=
              lookup (effectiveAvatarSize attributes) (avatar_urls a);
            showAvatar := showAvatar attributes;
            showBio := showBio attributes;
            byline := byline attributes |}).
  assert (Hsame : authorId postAuthor attributes'
                  = authorId postAuthor attributes).
  { unfold authorId at 1. cbn [id attributes'].
    destruct (truthyNumber (Some (a_id a))) eqn:E; [ exact Hid | ].
    (* the record's id is 0: the first render did not take it from a truthy
       attribute, so it took the post's author *)
    unfold authorId in *.
    destruct (id attributes) as [z|]; [ | reflexivity ].
    destruct (truthyNumber (Some z)) eqn:Ez; [ | reflexivity ].
    rewrite <- Hid in Ez. congruence. }
  assert (He : effectiveAvatarSize attributes'
               = effectiveAvatarSize attributes)
    by (now apply effectiveAvatarSize_set).
  split; [ | split ].
  - unfold PostAuthorEdit. cbv zeta. rewrite Hsame, Hg, He. reflexivity.
  - exact Hsize.
  - eexists. split; reflexivity.
Qed.

Lemma setAttributes_reaches_fixed_point_witness :
  let ada := {| a_id := 7; a_name := "Ada"%string;
                a_description := ""%string;
                avatar_urls := [ (24, "a24"%string); (48, "a48"%string) ] |} in
  let store := fun k => if k =? 7 then Some ada else None in
  let blank := {| id := None; name := None; description := None;
                  avatarSize := None; avatarUrl := None;
                  showAvatar := true; showBio := false;
                  byline := ""%string |} in
  let set := {| id := Some 7; name := Some "Ada"%string;
                description := Some ""%string;
                avatarSize := Some 24; avatarUrl := Some "a24"%string;
                showAvatar := true; showBio := false;
                byline := ""%string |} in
  keyed store
  /\ PostAuthorEdit store 7 blank = Display set ada
  /\ PostAuthorEdit store 7 set = Display set ada.
Proof.
  intros ada store blank set.
  assert (Hk : keyed store).
  { intros k a. unfold store. destruct (Z.eqb_spec k 7) as [-> | _];
      [ now intros [= <-] | discriminate ]. }
  split; [ exact Hk | ]. split; [ reflexivity | ].
  exact (proj1 (setAttributes_reaches_fixed_point store 7 blank set ada
                  Hk eq_refl)).
Defined.

(** Without a record for the chosen author nothing is set. *)
Lemma placeholder_without_author
    (getEntityRecord : Z -> option Author) (postAuthor : Z)
    (attributes : Attributes) :
  PostAuthorEdit getEntityRecord postAuthor attributes = Placeholder
  <-> getEntityRecord (authorId postAuthor attributes) = None.
Proof.
  unfold PostAuthorEdit.
  destruct (getEntityRecord (authorId postAuthor attributes));
    split; congruence.
Qed.

End PostAuthorFacts.
